(** * logs-distributor: a shallow embedding of the dispatch engine

    The development follows the JavaScript sources module by module:
    - [LogMessage], [LogPacket], [Analyzer]   (data-models.js)
    - [WeightedDistributor]                  (weighted-distributor.js)
    - [HealthChecker]                        (health-checker.js)
    - [Server]                               (web-server.js)
    - [Worker]                               (weighted-distributor.js)
    - [Main]                                 (index.js)

    Conventions of the embedding.
    - JavaScript numbers used as counters, lengths, HTTP statuses and
      millisecond clocks are integers here ([Z]); weights and the value of
      [Math.random()] are exact rationals ([Q]), so rounding of IEEE doubles
      is abstracted away.
    - A property that may be [undefined] is an [option]; truthiness of a
      string is "not the empty string".
    - [Date], [uuid()], [Math.random()] and the reply of the remote analyzer
      are inputs of the functions that consult them.
    - A JavaScript [Map] is an association list in insertion order with
      unique keys: [Map.set] on a present key overwrites in place, on an
      absent key appends.
    - [throw] is the [Throw] constructor of [Result]; an awaited promise is
      its settled value, and one handler runs from its request to its
      answer without another one in between.
    - Events handed to the distributor's [emit] are kept in a log; the
      listeners of the sources only print.

    The queue consumer ([processQueue], [processPacket]) is embedded in
    [Worker] as the steps it takes between two returns to the event loop,
    and the reading of the [ANALYZERS] variable of index.js in [Main]; the
    periodic timers appear as the actions of a run. *)

From Stdlib Require Import ZArith QArith Bool List String Ascii Lia.
From Stdlib Require Import DecimalString.
From Stdlib Require Import Permutation.
Import ListNotations.

Local Open Scope string_scope.
Local Open Scope Z_scope.

(** ** JavaScript preliminaries *)

Inductive Result (A : Type) : Type :=
| Ok (a : A)
| Throw (message : string).
Arguments Ok {A} a.
Arguments Throw {A} message.

(** Free-form JSON data, as carried by [metadata]. *)
#[local] Set Warnings "-register-all".
Inductive Json : Type :=
| JNull
| JBool (b : bool)
| JNum (n : Z)
| JStr (s : string)
| JArr (items : list Json)
| JObj (members : list (string * Json)).
#[local] Set Warnings "register-all".

(** Truthiness of a string and of a possibly-undefined string. *)
Definition truthy (s : string) : bool :=
  negb (s =? "")%string.

Definition truthy_opt (o : option string) : bool :=
  match o with
  | Some s => truthy s
  | None => false
  end.

(** [a || b] on a possibly-undefined string with a string fallback. *)
Definition or_else (o : option string) (fallback : string) : string :=
  match o with
  | Some s => if truthy s then s else fallback
  | None => fallback
  end.

(** Template-literal rendering of an integer. *)
Definition show (z : Z) : string :=
  NilZero.string_of_int (Z.to_int z).

(** [hay.includes(needle)] *)
Definition includes (hay needle : string) : bool :=
  match String.index 0 needle hay with
  | Some _ => true
  | None => false
  end.

(** *** The supply of fresh identifiers

    [uuid()] is modelled by a counter into an arbitrary sequence of
    identifiers; computations that call it thread the counter. *)
Definition Fresh (A : Type) : Type := nat -> A * nat.

Definition ret {A} (a : A) : Fresh A := fun n => (a, n).

Definition bind {A B} (m : Fresh A) (k : A -> Fresh B) : Fresh B :=
  fun n => let (a, n') := m n in k a n'.

Notation "x <- m ;; k" := (bind m (fun x => k))
  (at level 61, m at next level, right associativity).

Fixpoint mapM {A B} (f : A -> Fresh B) (l : list A) : Fresh (list B) :=
  match l with
  | [] => ret []
  | a :: l' => b <- f a ;; bs <- mapM f l' ;; ret (b :: bs)
  end.

(** [x / y] on integer-valued numbers: a finite rational unless the divisor
    is 0, where JavaScript yields NaN or an infinity ([None]). *)
Definition js_div (x y : Z) : option Q :=
  if y =? 0 then None else Some (inject_Z x / inject_Z y)%Q.

(** ** data-models.js *)

Definition LogLevel : list string :=
  ["DEBUG"; "INFO"; "WARN"; "ERROR"; "FATAL"].

Definition LogLevel_includes (level : option string) : bool :=
  match level with
  | Some l => existsb (String.eqb l) LogLevel
  | None => false
  end.

Module LogMessage.

(** The plain object exchanged on the wire; every property may be
    missing. *)
Record json : Type := mkJson {
  j_id : option string;
  j_timestamp : option string;
  j_level : option string;
  j_source : option string;
  j_message : option string;
  j_metadata : option Json
}.

(** A [LogMessage] instance.  [id] and [timestamp] always hold a string
    (the constructor fills them, [fromJSON] overwrites them only with a
    truthy value); [metadata] is never [undefined] because of the
    constructor's default parameter. *)
Record t : Type := mk {
  id : string;
  timestamp : string;
  level : option string;
  source : option string;
  message : option string;
  metadata : Json
}.

Section WithEnvironment.
Variable uuid : nat -> string.
(** [new Date().toISOString()] at the time of the call. *)
Variable now : string.

(** [constructor(level, source, message, metadata = {})] *)
Definition new (level source message : option string)
           (metadata : option Json) : Fresh t :=
  fun n =>
    ({| id := uuid n;
        timestamp := now;
        level := level;
        source := source;
        message := message;
        metadata := match metadata with
                    | Some m => m
                    | None => JObj []
                    end |}, S n).

(** [static fromJSON(json)] *)
Definition fromJSON (json : json) : Fresh t :=
  msg <- new (j_level json) (j_source json) (j_message json)
             (j_metadata json) ;;
  ret {| id := or_else (j_id json) (id msg);
         timestamp := or_else (j_timestamp json) (timestamp msg);
         level := level msg;
         source := source msg;
         message := message msg;
         metadata := metadata msg |}.
End WithEnvironment.

(** [isValid()] *)
Definition isValid (m : t) : bool :=
  truthy (id m) && truthy (timestamp m) && LogLevel_includes (level m)
  && truthy_opt (source m) && truthy_opt (message m).

(** [toJSON()] *)
Definition toJSON (m : t) : json :=
  {| j_id := Some (id m);
     j_timestamp := Some (timestamp m);
     j_level := level m;
     j_source := source m;
     j_message := message m;
     j_metadata := Some (metadata m) |}.

End LogMessage.

Module Analyzer.

Record t : Type := mk {
  id : string;
  endpoint : string;
  weight : Q;
  healthy : bool;
  lastSeen : string;
  consecutiveFailures : Z;
  consecutiveSuccesses : Z;
  totalChecks : Z;
  totalFailures : Z;
  lastResponseTime : Z
}.

(** [constructor(id, endpoint, weight = 1.0)]; [now] is the creation
    time. *)
Definition new (now : string) (id endpoint : string) (weight : option Q)
  : t :=
  {| id := id;
     endpoint := endpoint;
     weight := match weight with Some w => w | None => 1%Q end;
     healthy := true;
     lastSeen := now;
     consecutiveFailures := 0;
     consecutiveSuccesses := 0;
     totalChecks := 0;
     totalFailures := 0;
     lastResponseTime := 0 |}.

(** [updateHealth(success, responseTime = 0)]; [now] is the time of the
    call.  The two thresholds are the literal 3 of the source. *)
Definition updateHealth (now : string) (success : bool)
           (responseTime : Z) (a : t) : t :=
  let totalChecks' := totalChecks a + 1 in
  if success then
    let consecutiveSuccesses' := consecutiveSuccesses a + 1 in
    {| id := id a;
       endpoint := endpoint a;
       weight := weight a;
       healthy := if 3 <=? consecutiveSuccesses' then true else healthy a;
       lastSeen := now;
       consecutiveFailures := 0;
       consecutiveSuccesses := consecutiveSuccesses';
       totalChecks := totalChecks';
       totalFailures := totalFailures a;
       lastResponseTime := responseTime |}
  else
    let consecutiveFailures' := consecutiveFailures a + 1 in
    {| id := id a;
       endpoint := endpoint a;
       weight := weight a;
       healthy := if 3 <=? consecutiveFailures' then false else healthy a;
       lastSeen := lastSeen a;
       consecutiveFailures := consecutiveFailures';
       consecutiveSuccesses := 0;
       totalChecks := totalChecks';
       totalFailures := totalFailures a + 1;
       lastResponseTime := responseTime |}.

(** [getFailureRate()]; [None] stands for the non-finite results (NaN,
    the infinities) that only a division by zero can produce here. *)
Definition getFailureRate (a : t) : option Q :=
  if totalChecks a =? 0 then Some 0%Q
  else option_map (fun ratio => (ratio * 100)%Q)
                  (js_div (totalFailures a) (totalChecks a)).

(** One recorded outcome: success flag, response time and the wall clock
    at the moment of recording. *)
Record outcome : Type := mkOutcome {
  o_success : bool;
  o_responseTime : Z;
  o_now : string
}.

Definition record (a : t) (o : outcome) : t :=
  updateHealth (o_now o) (o_success o) (o_responseTime o) a.

(** The record after a finite sequence of [updateHealth] calls, oldest
    first. *)
Definition run (a : t) (os : list outcome) : t :=
  fold_left record os a.

(** The lifetime counters of a record: both non-negative, failures never
    ahead of checks. *)
Definition counts_ok (a : t) : Prop :=
  0 <= totalFailures a <= totalChecks a.

(** The flag agrees with the streak counters: a healthy record has fewer
    than 3 consecutive failures, an unhealthy one fewer than 3
    consecutive successes. *)
Definition streaks_ok (a : t) : Prop :=
  0 <= consecutiveFailures a /\ 0 <= consecutiveSuccesses a
  /\ (healthy a = true -> consecutiveFailures a < 3)
  /\ (healthy a = false -> consecutiveSuccesses a < 3).

(** The plain object produced by [toJSON()]. *)
Record status : Type := mkStatus {
  s_id : string;
  s_endpoint : string;
  s_weight : Q;
  s_healthy : bool;
  s_lastSeen : string;
  s_consecutiveFailures : Z;
  s_consecutiveSuccesses : Z;
  s_totalChecks : Z;
  s_totalFailures : Z;
  s_lastResponseTime : Z;
  s_failureRate : option Q
}.

(** [toJSON()] *)
Definition toJSON (a : t) : status :=
  {| s_id := id a;
     s_endpoint := endpoint a;
     s_weight := weight a;
     s_healthy := healthy a;
     s_lastSeen := lastSeen a;
     s_consecutiveFailures := consecutiveFailures a;
     s_consecutiveSuccesses := consecutiveSuccesses a;
     s_totalChecks := totalChecks a;
     s_totalFailures := totalFailures a;
     s_lastResponseTime := lastResponseTime a;
     s_failureRate := getFailureRate a |}.

End Analyzer.

Module LogPacket.

Record t : Type := mk {
  id : string;
  agentId : option string;
  timestamp : string;
  messages : list LogMessage.t
}.

(** The plain object of the envelope form; [j_messages] is the array
    when the property is present. *)
Record json : Type := mkJson {
  j_id : option string;
  j_agentId : option string;
  j_timestamp : option string;
  j_messages : option (list LogMessage.json)
}.

Section WithEnvironment.
Variable uuid : nat -> string.
Variable now : string.

(** [msg instanceof LogMessage ? msg : LogMessage.fromJSON(msg)] *)
Definition lift (msg : LogMessage.t + LogMessage.json)
  : Fresh LogMessage.t :=
  match msg with
  | inl m => ret m
  | inr j => LogMessage.fromJSON uuid now j
  end.

(** [constructor(agentId, messages = [])] *)
Definition new (agentId : option string)
           (messages : option (list (LogMessage.t + LogMessage.json)))
  : Fresh t :=
  fun n =>
    let (ms, n') :=
      mapM lift (match messages with Some l => l | None => [] end)
           (S n) in
    ({| id := uuid n;
        agentId := agentId;
        timestamp := now;
        messages := ms |}, n').

(** [static fromJSON(json)] *)
Definition fromJSON (json : json) : Fresh t :=
  packet <- new (j_agentId json)
                (option_map (map inr) (j_messages json)) ;;
  ret {| id := or_else (j_id json) (id packet);
         agentId := agentId packet;
         timestamp := or_else (j_timestamp json) (timestamp packet);
         messages := messages packet |}.
End WithEnvironment.

(** [isValid()] *)
Definition isValid (p : t) : bool :=
  truthy (id p) && truthy_opt (agentId p) && truthy (timestamp p)
  && forallb LogMessage.isValid (messages p).

(** [addMessage(message)]; the argument is a [LogMessage] by typing. *)
Definition addMessage (message : LogMessage.t) (p : t) : Result t :=
  if LogMessage.isValid message then
    Ok {| id := id p;
          agentId := agentId p;
          timestamp := timestamp p;
          messages := (messages p ++ [message])%list |}
  else Throw "Invalid LogMessage provided".

(** [toJSON()] *)
Definition toJSON (p : t) : json :=
  {| j_id := Some (id p);
     j_agentId := agentId p;
     j_timestamp := Some (timestamp p);
     j_messages := Some (map LogMessage.toJSON (messages p)) |}.

End LogPacket.

(** ** A [Map] keyed by strings, in insertion order *)

Module JsMap.
Section Values.
Context {V : Type}.

Definition t : Type := list (string * V).

Fixpoint get (k : string) (m : t) : option V :=
  match m with
  | [] => None
  | (k', v) :: m' => if (k' =? k)%string then Some v else get k m'
  end.

(** [set] keeps the position of a key that is already present. *)
Fixpoint set (k : string) (v : V) (m : t) : t :=
  match m with
  | [] => [(k, v)]
  | (k', v') :: m' =>
      if (k' =? k)%string then (k, v) :: m' else (k', v') :: set k v m'
  end.

Definition delete (k : string) (m : t) : t :=
  filter (fun entry => negb (fst entry =? k)%string) m.

Definition values (m : t) : list V := map snd m.

Definition keys (m : t) : list string := map fst m.

Definition size (m : t) : Z := Z.of_nat (List.length m).
End Values.
Arguments t V : clear implicits.
End JsMap.

(** ** The outside world of a dispatch *)

(** What comes back from an HTTP request: a response with a status line,
    or no response at all (connection failure, timeout). *)
Inductive HttpReply : Type :=
| Responded (status : Z) (statusText : string)
| Failed (reason : string).

Record Response : Type := mkResponse {
  status : Z;
  statusText : string
}.

(** An axios request under a given [validateStatus]: the promise resolves
    with the response when the status validates and rejects otherwise. *)
Definition axios_request (validateStatus : Z -> bool) (reply : HttpReply)
  : Result Response :=
  match reply with
  | Responded st txt =>
      if validateStatus st then Ok (mkResponse st txt)
      else Throw ("Request failed with status code " ++ show st)
  | Failed reason => Throw reason
  end.

(** [Math.random()]: a sequence of draws and the number consumed so far. *)
Record Rng : Type := mkRng {
  draws : nat -> Q;
  drawn : nat
}.

Definition Math_random (g : Rng) : Q * Rng :=
  (draws g (drawn g), {| draws := draws g; drawn := S (drawn g) |}).

(** [endpoint.replace(/\/$/, '')] *)
Fixpoint stripTrailingSlash (s : string) : string :=
  match s with
  | EmptyString => EmptyString
  | String c EmptyString =>
      if Ascii.eqb c "/"%char then EmptyString else s
  | String c rest => String c (stripTrailingSlash rest)
  end.

(** [x || fallback] on an optional number: [undefined] and 0 are falsy. *)
Definition number_or (o : option Z) (fallback : Z) : Z :=
  match o with
  | Some z => if z =? 0 then fallback else z
  | None => fallback
  end.

Definition Json_truthy (j : Json) : bool :=
  match j with
  | JNull => false
  | JBool b => b
  | JNum n => negb (n =? 0)
  | JStr s => truthy s
  | JArr _ | JObj _ => true
  end.

(** ** weighted-distributor.js *)

Module WeightedDistributor.

Record Options : Type := mkOptions {
  o_maxQueueSize : option Z;
  o_batchSize : option Z;
  o_processingInterval : option Z;
  o_timeout : option Z
}.

Record Stats : Type := mkStats {
  packetsReceived : Z;
  packetsProcessed : Z;
  packetsDropped : Z;
  errors : Z;
  totalLatency : Z;
  avgLatency : Q
}.

(** An entry of [packetQueue]. *)
Record Packet : Type := mkPacket {
  p_id : string;
  p_messages : list string;
  p_timestamp : Z
}.

(** Events handed to [emit], most recent first. *)
Inductive Event : Type :=
| analyzerAdded (analyzer : Analyzer.t)
| analyzerRemoved (analyzer : Analyzer.t)
| analyzerHealthChanged (analyzer : Analyzer.t)
| messageDelivered (analyzerId : string) (messageId : option string)
                   (responseTime : Z)
| messageDeliveryFailed (analyzerId : string) (error : string)
                        (responseTime : Z).

Record t : Type := mk {
  maxQueueSize : Z;
  batchSize : Z;
  processingInterval : Z;
  httpTimeout : Z;
  analyzers : JsMap.t Analyzer.t;
  packetQueue : list Packet;
  roundRobinCounter : Z;
  isProcessing : bool;
  stats : Stats;
  emitted : list Event
}.

(** [constructor(options = {})] *)
Definition new (options : Options) : t :=
  {| maxQueueSize := number_or (o_maxQueueSize options) 10000;
     batchSize := number_or (o_batchSize options) 100;
     processingInterval := number_or (o_processingInterval options) 10;
     httpTimeout := number_or (o_timeout options) 5000;
     analyzers := [];
     packetQueue := [];
     roundRobinCounter := 0;
     isProcessing := false;
     stats := mkStats 0 0 0 0 0 0%Q;
     emitted := [] |}.

(** [validateStatus] of [this.httpClient]: do not throw for 4xx. *)
Definition validateStatus (status : Z) : bool := status <? 500.

(** *** Field updates *)

Definition with_analyzers (m : JsMap.t Analyzer.t) (d : t) : t :=
  mk (maxQueueSize d) (batchSize d) (processingInterval d) (httpTimeout d)
     m (packetQueue d) (roundRobinCounter d) (isProcessing d) (stats d)
     (emitted d).

Definition with_packetQueue (q : list Packet) (d : t) : t :=
  mk (maxQueueSize d) (batchSize d) (processingInterval d) (httpTimeout d)
     (analyzers d) q (roundRobinCounter d) (isProcessing d) (stats d)
     (emitted d).

Definition with_stats (s : Stats) (d : t) : t :=
  mk (maxQueueSize d) (batchSize d) (processingInterval d) (httpTimeout d)
     (analyzers d) (packetQueue d) (roundRobinCounter d) (isProcessing d) s
     (emitted d).

Definition emit (e : Event) (d : t) : t :=
  mk (maxQueueSize d) (batchSize d) (processingInterval d) (httpTimeout d)
     (analyzers d) (packetQueue d) (roundRobinCounter d) (isProcessing d)
     (stats d) (e :: emitted d).

(** [this.stats.packetsReceived++] and its siblings *)
Definition incr_packetsReceived (d : t) : t :=
  let s := stats d in
  with_stats (mkStats (packetsReceived s + 1) (packetsProcessed s)
                      (packetsDropped s) (errors s) (totalLatency s)
                      (avgLatency s)) d.

Definition incr_packetsDropped (d : t) : t :=
  let s := stats d in
  with_stats (mkStats (packetsReceived s) (packetsProcessed s)
                      (packetsDropped s + 1) (errors s) (totalLatency s)
                      (avgLatency s)) d.

Definition incr_errors (d : t) : t :=
  let s := stats d in
  with_stats (mkStats (packetsReceived s) (packetsProcessed s)
                      (packetsDropped s) (errors s + 1) (totalLatency s)
                      (avgLatency s)) d.

(** *** Registry *)

(** [addAnalyzer(analyzer)]; the argument is an [Analyzer] by typing. *)
Definition addAnalyzer (analyzer : Analyzer.t) (d : t) : t :=
  emit (analyzerAdded analyzer)
       (with_analyzers
          (JsMap.set (Analyzer.id analyzer) analyzer (analyzers d)) d).

(** [removeAnalyzer(analyzerId)] *)
Definition removeAnalyzer (analyzerId : string) (d : t) : t :=
  match JsMap.get analyzerId (analyzers d) with
  | Some analyzer =>
      emit (analyzerRemoved analyzer)
           (with_analyzers (JsMap.delete analyzerId (analyzers d)) d)
  | None => d
  end.

(** [updateAnalyzerHealth(analyzerId, healthy, responseTime = 0)].  The
    stored object is mutated in place, so its position in the map does
    not change. *)
Definition updateAnalyzerHealth (now : string) (analyzerId : string)
           (healthy : bool) (responseTime : Z) (d : t) : t :=
  match JsMap.get analyzerId (analyzers d) with
  | Some analyzer =>
      let analyzer' :=
        Analyzer.updateHealth now healthy responseTime analyzer in
      emit (analyzerHealthChanged analyzer')
           (with_analyzers
              (JsMap.set analyzerId analyzer' (analyzers d)) d)
  | None => d
  end.

(** [getHealthyAnalyzers()] *)
Definition getHealthyAnalyzers (d : t) : list Analyzer.t :=
  filter Analyzer.healthy (JsMap.values (analyzers d)).

(** [getTotalWeight()] *)
Definition getTotalWeight (d : t) : Q :=
  fold_left (fun sum analyzer => (sum + Analyzer.weight analyzer)%Q)
            (getHealthyAnalyzers d) 0%Q.

(** *** Selection *)

(** The [for ... of] loop of [selectAnalyzer]: the first analyzer at
    which [random <= cumulativeWeight], if the loop returns at all. *)
Fixpoint walk (random cumulativeWeight : Q) (l : list Analyzer.t)
  : option Analyzer.t :=
  match l with
  | [] => None
  | analyzer :: rest =>
      let cumulativeWeight' :=
        (cumulativeWeight + Analyzer.weight analyzer)%Q in
      if Qle_bool random cumulativeWeight' then Some analyzer
      else walk random cumulativeWeight' rest
  end.

(** [selectAnalyzer()]; returns the choice and the generator, advanced
    when [Math.random()] was called. *)
Definition selectAnalyzer (d : t) (g : Rng) : option Analyzer.t * Rng :=
  let healthyAnalyzers := getHealthyAnalyzers d in
  match healthyAnalyzers with
  | [] => (None, g)
  | [only] => (Some only, g)
  | _ =>
      let totalWeight := getTotalWeight d in
      if Qeq_bool totalWeight 0 then (None, g)
      else
        let (u, g') := Math_random g in
        let random := (u * totalWeight)%Q in
        match walk random 0 healthyAnalyzers with
        | Some analyzer => (Some analyzer, g')
        | None => (List.last (map Some healthyAnalyzers) None, g')
        end
  end.

(** *** Dispatch *)

Section Dispatch.
(** [JSON.parse] on a queued message: the parsed object, or the
    message of the [SyntaxError]. *)
Variable JSON_parse : string -> Result LogMessage.json.
(** Number-to-string conversion of a double, as in a template
    literal. *)
Variable showNumber : Q -> string.

(** The URL of the analyze request. *)
Definition analyzerUrl (analyzer : Analyzer.t) : string :=
  stripTrailingSlash (Analyzer.endpoint analyzer) ++ "/analyze".

(** The body of the analyze request. *)
Definition payload (logData : LogMessage.json) : LogMessage.json :=
  {| LogMessage.j_id := LogMessage.j_id logData;
     LogMessage.j_timestamp := LogMessage.j_timestamp logData;
     LogMessage.j_level := LogMessage.j_level logData;
     LogMessage.j_source := LogMessage.j_source logData;
     LogMessage.j_message := LogMessage.j_message logData;
     LogMessage.j_metadata :=
       match LogMessage.j_metadata logData with
       | Some m => if Json_truthy m then Some m else Some (JObj [])
       | None => Some (JObj [])
       end |}.

(** The inner [try] body of [sendToAnalyzer] up to the status check:
    the parsed message when the analyzer answered 2xx, otherwise the
    error that reaches the [catch].  [net] answers the request. *)
Definition attempt (net : string -> LogMessage.json -> HttpReply)
           (analyzer : Analyzer.t) (message : string)
  : Result LogMessage.json :=
  match JSON_parse message with
  | Throw e => Throw ("Invalid message format: " ++ e)
  | Ok logData =>
      match axios_request validateStatus
              (net (analyzerUrl analyzer) (payload logData)) with
      | Throw e => Throw e
      | Ok response =>
          if (200 <=? status response) && (status response <? 300)
          then Ok logData
          else Throw ("Analyzer returned status "
                        ++ show (status response) ++ ": "
                        ++ statusText response)
      end
  end.

(** [sendToAnalyzer(analyzer, message)].  [elapsed] is
    [Date.now() - startTime] when the outcome is known, [now] the wall
    clock at that moment. *)
Definition sendToAnalyzer (net : string -> LogMessage.json -> HttpReply)
           (elapsed : Z) (now : string)
           (analyzer : Analyzer.t) (message : string) (d : t)
  : t * Result unit :=
  match attempt net analyzer message with
  | Ok logData =>
      let d1 :=
        updateAnalyzerHealth now (Analyzer.id analyzer) true elapsed d in
      (emit (messageDelivered (Analyzer.id analyzer)
                              (LogMessage.j_id logData) elapsed) d1,
       Ok tt)
  | Throw e =>
      let d1 :=
        updateAnalyzerHealth now (Analyzer.id analyzer) false elapsed d
      in
      (emit (messageDeliveryFailed (Analyzer.id analyzer) e elapsed) d1,
       Throw ("Failed to send to analyzer " ++ Analyzer.id analyzer
                ++ ": " ++ e))
  end.

(** [distribute(logMessage)] *)
Definition distribute (net : string -> LogMessage.json -> HttpReply)
           (elapsed : Z) (now : string)
           (logMessage : string) (d : t) (g : Rng)
  : t * Rng * Result bool :=
  match selectAnalyzer d g with
  | (None, g') =>
      (incr_errors d, g', Throw "No healthy analyzers available")
  | (Some analyzer, g') =>
      match sendToAnalyzer net elapsed now analyzer logMessage d with
      | (d1, Ok _) => (d1, g', Ok true)
      | (d1, Throw e) =>
          (updateAnalyzerHealth now (Analyzer.id analyzer) false 0
                                (incr_errors d1),
           g', Throw e)
      end
  end.

(** [distributePacket(logPacket)]; [nowMs] is [Date.now()]. *)
Definition distributePacket (nowMs : Z) (logPacket : list string)
           (d : t) (g : Rng) : t * Rng * Result unit :=
  let startTime := nowMs in
  let d1 := incr_packetsReceived d in
  if maxQueueSize d1 <=? Z.of_nat (List.length (packetQueue d1)) then
    (incr_packetsDropped d1, g,
     Throw "Queue full - applying backpressure")
  else
    let (r, g') := Math_random g in
    let packet :=
      {| p_id := "packet-" ++ show nowMs ++ "-" ++ showNumber r;
         p_messages := logPacket;
         p_timestamp := startTime |} in
    (with_packetQueue (packetQueue d1 ++ [packet])%list d1, g', Ok tt).
End Dispatch.

(** [getStats()] *)
Record StatsView : Type := mkStatsView {
  v_stats : Stats;
  queueSize : Z;
  analyzersTotal : Z;
  analyzersHealthy : Z;
  totalWeight : Q
}.

Definition getStats (d : t) : StatsView :=
  {| v_stats := stats d;
     queueSize := Z.of_nat (List.length (packetQueue d));
     analyzersTotal := JsMap.size (analyzers d);
     analyzersHealthy := Z.of_nat (List.length (getHealthyAnalyzers d));
     totalWeight := getTotalWeight d |}.

(** [getAnalyzersStatus()] *)
Definition getAnalyzersStatus (d : t) : list Analyzer.status :=
  map Analyzer.toJSON (JsMap.values (analyzers d)).

Definition with_isProcessing (b : bool) (d : t) : t :=
  mk (maxQueueSize d) (batchSize d) (processingInterval d) (httpTimeout d)
     (analyzers d) (packetQueue d) (roundRobinCounter d) b (stats d)
     (emitted d).

End WeightedDistributor.

(** ** health-checker.js *)

Module HealthChecker.

Record Options : Type := mkOptions {
  o_checkInterval : option Z;
  o_timeout : option Z;
  o_failureThreshold : option Z;
  o_successThreshold : option Z
}.

Record t : Type := mk {
  checkInterval : Z;
  timeout : Z;
  failureThreshold : Z;
  successThreshold : Z;
  isRunning : bool
}.

(** [constructor(distributor, options = {})]; the checker is started at
    once. *)
Definition new (options : Options) : t :=
  {| checkInterval := number_or (o_checkInterval options) 30000;
     timeout := number_or (o_timeout options) 5000;
     failureThreshold := number_or (o_failureThreshold options) 3;
     successThreshold := number_or (o_successThreshold options) 3;
     isRunning := true |}.

(** [validateStatus] of the probing client. *)
Definition validateStatus (status : Z) : bool :=
  (200 <=? status) && (status <? 300).

(** [performHealthCheck(endpoint)]; [reply] answers the GET.  The
    wording chosen per connection error code is folded into [reason]. *)
Definition performHealthCheck (reply : HttpReply) (endpoint : string)
  : Result bool :=
  match axios_request validateStatus reply with
  | Ok response =>
      Ok ((200 <=? status response) && (status response <? 300))
  | Throw e =>
      match reply with
      | Responded st txt =>
          Throw ("Health check failed with status " ++ show st ++ ": "
                   ++ txt)
      | Failed reason => Throw ("Health check failed: " ++ reason)
      end
  end.

(** [checkAnalyzerHealth(analyzerId, endpoint)] on the distributor the
    checker was built with.  Neither threshold of [hc] is consulted. *)
Definition checkAnalyzerHealth (hc : t) (reply : HttpReply)
           (elapsed : Z) (now : string)
           (analyzerId endpoint : string) (d : WeightedDistributor.t)
  : WeightedDistributor.t :=
  match performHealthCheck reply endpoint with
  | Ok isHealthy =>
      WeightedDistributor.updateAnalyzerHealth now analyzerId isHealthy
                                               elapsed d
  | Throw _ =>
      WeightedDistributor.updateAnalyzerHealth now analyzerId false
                                               elapsed d
  end.

(** [triggerHealthCheck(analyzerId)] *)
Definition triggerHealthCheck (hc : t) (reply : HttpReply)
           (elapsed : Z) (now : string)
           (analyzerId : string) (d : WeightedDistributor.t)
  : WeightedDistributor.t * Result unit :=
  match JsMap.get analyzerId (WeightedDistributor.analyzers d) with
  | None => (d, Throw ("Analyzer " ++ analyzerId ++ " not found"))
  | Some analyzer =>
      (checkAnalyzerHealth hc reply elapsed now analyzerId
                           (Analyzer.endpoint analyzer) d, Ok tt)
  end.

(** The URL of the probe. *)
Definition healthUrl (endpoint : string) : string :=
  stripTrailingSlash endpoint ++ "/health".

(** The probes of one round settling in the order [settled]: each entry
    of the snapshot taken by [checkAllAnalyzers] runs the continuation of
    its [checkAnalyzerHealth] when its answer is in.  [replyOf],
    [elapsedOf] and [nowOf] give, per analyzer id, the answer to its probe,
    the measured round trip and the wall clock at that moment. *)
Definition settleProbes (hc : t) (replyOf : string -> HttpReply)
           (elapsedOf : string -> Z) (nowOf : string -> string)
           (settled : list Analyzer.status) (d : WeightedDistributor.t)
  : WeightedDistributor.t :=
  fold_left
    (fun d' a =>
       checkAnalyzerHealth hc (replyOf (Analyzer.s_id a))
                           (elapsedOf (Analyzer.s_id a))
                           (nowOf (Analyzer.s_id a))
                           (Analyzer.s_id a) (Analyzer.s_endpoint a) d')
    settled d.

(** [checkAllAnalyzers()] with the answers arriving in snapshot order. *)
Definition checkAllAnalyzers (hc : t) (replyOf : string -> HttpReply)
           (elapsedOf : string -> Z) (nowOf : string -> string)
           (d : WeightedDistributor.t) : WeightedDistributor.t :=
  settleProbes hc replyOf elapsedOf nowOf
               (WeightedDistributor.getAnalyzersStatus d) d.

End HealthChecker.

(** ** web-server.js *)

Module Server.

Record t : Type := mk {
  distributor : WeightedDistributor.t;
  healthChecker : HealthChecker.t
}.

Definition with_distributor (d : WeightedDistributor.t) (srv : t) : t :=
  mk d (healthChecker srv).

(** A parsed request body of [POST /logs]: an object (whose relevant
    properties are those of the envelope), an array of strings and
    message objects, or any other JSON value. *)
Inductive LogsBody : Type :=
| BObject (envelope : LogPacket.json)
| BArray (items : list (string + LogMessage.json))
| BOther.

(** The request body of [POST /analyzers]. *)
Record AnalyzerBody : Type := mkAnalyzerBody {
  b_id : option string;
  b_endpoint : option string;
  b_weight : option Q
}.

(** What a handler sends: the status code and the JSON it carries. *)
Inductive Sent : Type :=
| logsAccepted (packetId : string) (messageCount : Z) (timestamp : string)
| invalidPacket (packetId : string)
| failure (error : string) (message : option string)
| analyzerStored (analyzer : Analyzer.t)
| done (message : string).

Record HttpResponse : Type := mkHttpResponse {
  statusCode : Z;
  sent : Sent
}.

Section Handlers.
Variable uuid : nat -> string.
(** [JSON.stringify] on the wire form of a message. *)
Variable JSON_stringify : LogMessage.json -> string.
Variable showNumber : Q -> string.

(** [parseLogPacket(body)] *)
Definition parseLogPacket (now : string) (body : LogsBody)
  : Fresh (Result LogPacket.t) :=
  match body with
  | BObject envelope =>
      if truthy_opt (LogPacket.j_id envelope)
         && truthy_opt (LogPacket.j_agentId envelope)
         && (match LogPacket.j_messages envelope with
             | Some _ => true
             | None => false
             end)
      then packet <- LogPacket.fromJSON uuid now envelope ;;
           ret (Ok packet)
      else ret (Throw "Invalid log packet format")
  | BArray items =>
      messages <-
        mapM (fun msg =>
                match msg with
                | inl text =>
                    LogMessage.new uuid now (Some "INFO")
                                   (Some "unknown") (Some text) None
                | inr json => LogMessage.fromJSON uuid now json
                end) items ;;
      packet <- LogPacket.new uuid now (Some "unknown-agent")
                              (Some (map inl messages)) ;;
      ret (Ok packet)
  | BOther => ret (Throw "Invalid log packet format")
  end.

(** The [catch] block of the [POST /logs] handler. *)
Definition logsError (message : string) : HttpResponse :=
  if includes message "Queue full" then
    mkHttpResponse 429
      (failure "Service temporarily unavailable"
               (Some "Queue full - applying backpressure"))
  else
    mkHttpResponse 500
      (failure "Failed to process log packet" (Some message)).

(** [POST /logs]; [now] and [nowMs] are the wall clock in its two
    renderings. *)
Definition postLogs (now : string) (nowMs : Z) (body : LogsBody)
           (srv : t) (g : Rng) : Fresh (t * Rng * HttpResponse) :=
  parsed <- parseLogPacket now body ;;
  match parsed with
  | Throw e => ret (srv, g, logsError e)
  | Ok packet =>
      if negb (LogPacket.isValid packet) then
        ret (srv, g,
             mkHttpResponse 400 (invalidPacket (LogPacket.id packet)))
      else
        let messages :=
          map (fun msg => JSON_stringify (LogMessage.toJSON msg))
              (LogPacket.messages packet) in
        match WeightedDistributor.distributePacket
                showNumber nowMs messages (distributor srv) g with
        | (d', g', Ok _) =>
            ret (with_distributor d' srv, g',
                 mkHttpResponse 200
                   (logsAccepted (LogPacket.id packet)
                                 (Z.of_nat (List.length messages)) now))
        | (d', g', Throw e) =>
            ret (with_distributor d' srv, g', logsError e)
        end
  end.
End Handlers.

(** [weight || 1.0] *)
Definition weight_or_default (weight : option Q) : Q :=
  match weight with
  | Some w => if Qeq_bool w 0 then 1%Q else w
  | None => 1%Q
  end.

(** [POST /analyzers] *)
Definition postAnalyzers (now : string) (body : AnalyzerBody) (srv : t)
  : t * HttpResponse :=
  if negb (truthy_opt (b_id body)) || negb (truthy_opt (b_endpoint body))
  then
    (srv, mkHttpResponse 400
            (failure "Missing required fields: id, endpoint" None))
  else
    let analyzer :=
      Analyzer.new now (or_else (b_id body) "") (or_else (b_endpoint body) "")
                   (Some (weight_or_default (b_weight body))) in
    (with_distributor
       (WeightedDistributor.addAnalyzer analyzer (distributor srv)) srv,
     mkHttpResponse 200 (analyzerStored analyzer)).

(** [DELETE /analyzers/:id] *)
Definition deleteAnalyzer (analyzerId : string) (srv : t)
  : t * HttpResponse :=
  (with_distributor
     (WeightedDistributor.removeAnalyzer analyzerId (distributor srv)) srv,
   mkHttpResponse 200 (done ("Analyzer " ++ analyzerId ++ " removed"))).

(** [constructor(options = {})] *)
Definition new (distributorOptions : WeightedDistributor.Options)
           (healthCheckerOptions : HealthChecker.Options) : t :=
  {| distributor := WeightedDistributor.new distributorOptions;
     healthChecker := HealthChecker.new healthCheckerOptions |}.

(** The JSON of [GET /ready]. *)
Record Readiness : Type := mkReadiness {
  readyStatus : Z;
  ready : bool;
  healthyAnalyzers : Z;
  totalAnalyzers : Z
}.

(** [GET /ready] *)
Definition getReady (srv : t) : Readiness :=
  let healthy :=
    WeightedDistributor.getHealthyAnalyzers (distributor srv) in
  let isReady := 0 <? Z.of_nat (List.length healthy) in
  {| readyStatus := if isReady then 200 else 503;
     ready := isReady;
     healthyAnalyzers := Z.of_nat (List.length healthy);
     totalAnalyzers :=
       JsMap.size (WeightedDistributor.analyzers (distributor srv)) |}.

(** [GET /analyzers] *)
Definition getAnalyzers (srv : t) : list Analyzer.status :=
  WeightedDistributor.getAnalyzersStatus (distributor srv).

(** [POST /analyzers/:id/health]; [reply] answers the probe. *)
Definition postAnalyzerHealth (reply : HttpReply) (elapsed : Z)
           (now : string) (analyzerId : string) (srv : t)
  : t * HttpResponse :=
  match HealthChecker.triggerHealthCheck (healthChecker srv) reply elapsed
          now analyzerId (distributor srv) with
  | (d', Ok _) =>
      (with_distributor d' srv,
       mkHttpResponse 200
         (done ("Health check triggered for " ++ analyzerId)))
  | (d', Throw e) =>
      (with_distributor d' srv,
       mkHttpResponse 500 (failure "Failed to trigger health check" (Some e)))
  end.

End Server.

(** ** The dispatch worker of weighted-distributor.js

    [processQueue] and [processPacket] are cut where control returns to the
    event loop: taking a batch off the queue, and the completion of the
    packet at the head of the batch.  The [packetProcessed] event has no
    listener and is not logged; the [catch] blocks of both functions are
    unreachable because every per-message promise carries its own
    [catch]. *)

Module Worker.

(** The distributor together with the packets of the batch that the
    running [processQueue] call has not finished yet. *)
Record t : Type := mk {
  distributor : WeightedDistributor.t;
  batch : list WeightedDistributor.Packet
}.

Definition start (options : WeightedDistributor.Options) : t :=
  mk (WeightedDistributor.new options) [].

(** [processQueue()], from the timer to its first [await]:
    [splice(0, batchSize)] takes the oldest packets.  When nothing is
    taken the [finally] block runs at once. *)
Definition processQueue (w : t) : t :=
  let d := distributor w in
  if WeightedDistributor.isProcessing d
     || (Z.of_nat (List.length (WeightedDistributor.packetQueue d)) =? 0)
  then w
  else
    let n := Z.to_nat (WeightedDistributor.batchSize d) in
    let taken := firstn n (WeightedDistributor.packetQueue d) in
    let d1 :=
      WeightedDistributor.with_packetQueue
        (skipn n (WeightedDistributor.packetQueue d)) d in
    match taken with
    | [] => mk (WeightedDistributor.with_isProcessing false d1) []
    | _ => mk (WeightedDistributor.with_isProcessing true d1) taken
    end.

(** The statistics update of [processPacket]; [latency] is
    [Date.now() - packet.timestamp]. *)
Definition recordLatency (latency : Z) (d : WeightedDistributor.t)
  : WeightedDistributor.t :=
  let s := WeightedDistributor.stats d in
  let processed := WeightedDistributor.packetsProcessed s + 1 in
  let total := WeightedDistributor.totalLatency s + latency in
  WeightedDistributor.with_stats
    (WeightedDistributor.mkStats
       (WeightedDistributor.packetsReceived s) processed
       (WeightedDistributor.packetsDropped s)
       (WeightedDistributor.errors s) total
       (inject_Z total / inject_Z processed)%Q) d.

(** All messages of the packet at the head of the batch have been
    attempted: [processPacket] records the packet, and [processQueue]
    goes on with the next packet or, after the last one, clears
    [isProcessing]. *)
Definition packetDone (nowMs : Z) (w : t) : t :=
  match batch w with
  | [] => w
  | packet :: rest =>
      let d1 :=
        recordLatency (nowMs - WeightedDistributor.p_timestamp packet)
                      (distributor w) in
      match rest with
      | [] => mk (WeightedDistributor.with_isProcessing false d1) []
      | _ => mk d1 rest
      end
  end.

(** What can happen to a running distributor, one event-loop turn at a
    time. *)
Inductive Action : Type :=
| submit (nowMs : Z) (logPacket : list string)
| tick
| dispatch (net : string -> LogMessage.json -> HttpReply) (elapsed : Z)
           (now : string) (message : string)
| settled (nowMs : Z)
| probe (reply : HttpReply) (elapsed : Z) (now : string)
        (analyzerId endpoint : string)
| add (analyzer : Analyzer.t)
| remove (analyzerId : string).

Section Steps.
Variable JSON_parse : string -> Result LogMessage.json.
Variable showNumber : Q -> string.
Variable hc : HealthChecker.t.

Definition on_distributor
           (f : WeightedDistributor.t -> WeightedDistributor.t) (w : t)
  : t :=
  mk (f (distributor w)) (batch w).

Definition step (state : t * Rng) (a : Action) : t * Rng :=
  let (w, g) := state in
  match a with
  | submit nowMs logPacket =>
      let '(d', g', _) :=
        WeightedDistributor.distributePacket showNumber nowMs logPacket
                                             (distributor w) g in
      (mk d' (batch w), g')
  | tick => (processQueue w, g)
  | dispatch net elapsed now message =>
      let '(d', g', _) :=
        WeightedDistributor.distribute JSON_parse net elapsed now message
                                       (distributor w) g in
      (mk d' (batch w), g')
  | settled nowMs => (packetDone nowMs w, g)
  | probe reply elapsed now analyzerId endpoint =>
      (on_distributor
         (HealthChecker.checkAnalyzerHealth hc reply elapsed now analyzerId
                                            endpoint) w, g)
  | add analyzer =>
      (on_distributor (WeightedDistributor.addAnalyzer analyzer) w, g)
  | remove analyzerId =>
      (on_distributor (WeightedDistributor.removeAnalyzer analyzerId) w, g)
  end.

Definition run (state : t * Rng) (actions : list Action) : t * Rng :=
  fold_left step actions state.
End Steps.

End Worker.

(** ** index.js: analyzers from the environment *)

Module Main.

(** [s.split(sep)] for a one-character separator. *)
Fixpoint split (sep : ascii) (s : string) : list string :=
  match s with
  | EmptyString => [EmptyString]
  | String c rest =>
      let parts := split sep rest in
      if Ascii.eqb c sep then EmptyString :: parts
      else String c (hd EmptyString parts) :: tl parts
  end.

(** [parts.join(sep)] *)
Definition join (sep : ascii) (parts : list string) : string :=
  String.concat (String sep EmptyString) parts.

(** Does [c] occur in [s]? *)
Fixpoint occurs (c : ascii) (s : string) : bool :=
  match s with
  | EmptyString => false
  | String c' rest => Ascii.eqb c' c || occurs c rest
  end.

Record AnalyzerConfig : Type := mkAnalyzerConfig {
  c_id : string;
  c_endpoint : string;
  c_weight : Q
}.

Section Config.
(** [parseFloat]; [None] is NaN. *)
Variable parseFloat : string -> option Q.

(** The body of the [map] over the comma-separated entries. *)
Definition parseAnalyzer (config : string) : AnalyzerConfig :=
  let parts := split ":" config in
  {| c_id := hd EmptyString parts;
     c_weight :=
       Server.weight_or_default (parseFloat (List.last parts EmptyString));
     c_endpoint := join ":" (removelast (tl parts)) |}.

Definition parseAnalyzers (analyzersConfig : string)
  : list AnalyzerConfig :=
  map parseAnalyzer (split "," analyzersConfig).

(** The [forEach] that registers the configured analyzers. *)
Definition addConfigured (now : string) (configs : list AnalyzerConfig)
           (d : WeightedDistributor.t) : WeightedDistributor.t :=
  fold_left
    (fun d' c =>
       WeightedDistributor.addAnalyzer
         (Analyzer.new now (c_id c) (c_endpoint c) (Some (c_weight c))) d')
    configs d.
End Config.

End Main.

(** * Auxiliary definitions for the statements *)

(** ** The selector as the specification words it

    Second definition, written from the specification text and not from
    the code: the healthy analyzers are visited in lexicographic order of
    their ids, and the first one with [r < c] (strictly) is selected; the
    last one visited is the fallback. *)

Module SpecSelector.

Fixpoint insert_by_id (a : Analyzer.t) (l : list Analyzer.t)
  : list Analyzer.t :=
  match l with
  | [] => [a]
  | b :: rest =>
      if String.leb (Analyzer.id a) (Analyzer.id b) then a :: l
      else b :: insert_by_id a rest
  end.

Definition sort_by_id (l : list Analyzer.t) : list Analyzer.t :=
  fold_right insert_by_id [] l.

Definition Qlt_bool (x y : Q) : bool := negb (Qle_bool y x).

Fixpoint walk_strict (r c : Q) (l : list Analyzer.t)
  : option Analyzer.t :=
  match l with
  | [] => None
  | a :: rest =>
      let c' := (c + Analyzer.weight a)%Q in
      if Qlt_bool r c' then Some a else walk_strict r c' rest
  end.

(** [u] is the uniform draw in [[0, 1)], scaled to [[0, S)]. *)
Definition select (healthy : list Analyzer.t) (u : Q)
  : option Analyzer.t :=
  match healthy with
  | [] => None
  | [only] => Some only
  | _ =>
      let S :=
        fold_left (fun s a => (s + Analyzer.weight a)%Q) healthy 0%Q in
      if Qeq_bool S 0 then None
      else
        let ordered := sort_by_id healthy in
        match walk_strict (u * S) 0 ordered with
        | Some a => Some a
        | None => List.last (map Some ordered) None
        end
  end.

End SpecSelector.

(** ** Vocabulary for the selector of the code *)

(** Sum of the weights of [l] on top of [c], in the order of the loop. *)
Definition cumulative (c : Q) (l : list Analyzer.t) : Q :=
  fold_left (fun sum analyzer => (sum + Analyzer.weight analyzer)%Q) l c.

(** [chosen] is the first element of [l], in list order, whose cumulative
    weight reaches [r] in the non-strict sense [r <= c]; when no
    cumulative weight reaches [r], it is the last element. *)
Definition first_reaching (r : Q) (l : list Analyzer.t)
           (chosen : Analyzer.t) : Prop :=
  (exists before after,
      l = (before ++ chosen :: after)%list
      /\ (r <= cumulative 0 (before ++ [chosen]))%Q
      /\ forall pre x suf,
          before = (pre ++ x :: suf)%list ->
          ~ (r <= cumulative 0 (pre ++ [x]))%Q)
  \/ ((forall pre x suf,
          l = (pre ++ x :: suf)%list ->
          ~ (r <= cumulative 0 (pre ++ [x]))%Q)
      /\ exists front, l = (front ++ [chosen])%list).

(** The generator after one call of [Math.random()]. *)
Definition advance (g : Rng) : Rng := snd (Math_random g).

(** ** Concrete inputs *)

Module Examples.

Definition clock : string := "2024-01-01T00:00:00.000Z".

Definition uuid (n : nat) : string := "uuid-" ++ show (Z.of_nat n).

(** A generator whose every draw is [u]. *)
Definition constant (u : Q) : Rng :=
  {| draws := fun _ => u; drawn := 0 |}.

Definition logData : LogMessage.json :=
  {| LogMessage.j_id := Some "m-1";
     LogMessage.j_timestamp := Some clock;
     LogMessage.j_level := Some "INFO";
     LogMessage.j_source := Some "agent";
     LogMessage.j_message := Some "started";
     LogMessage.j_metadata := Some (JObj []) |}.

Definition message : LogMessage.t :=
  {| LogMessage.id := "m-1";
     LogMessage.timestamp := clock;
     LogMessage.level := Some "INFO";
     LogMessage.source := Some "agent";
     LogMessage.message := Some "started";
     LogMessage.metadata := JObj [("host", JStr "h1")] |}.

(** Parsers and printers standing for [JSON.parse], [JSON.stringify] and
    number printing on the inputs used below. *)
Definition parse (text : string) : Result LogMessage.json :=
  if (text =? "not json")%string then Throw "Unexpected token"
  else Ok logData.

Definition stringify (j : LogMessage.json) : string :=
  match LogMessage.j_message j with
  | Some text => text
  | None => "{}"
  end.

Definition showNumber (q : Q) : string :=
  show (Qnum q) ++ "/" ++ show (Zpos (Qden q)).

(** An analyzer endpoint that answers every request alike. *)
Definition answering (reply : HttpReply)
  : string -> LogMessage.json -> HttpReply :=
  fun _ _ => reply.

Definition a1 : Analyzer.t :=
  Analyzer.new clock "a1" "http://localhost:8081" (Some 1%Q).

(** A distributor with the single analyzer [a1]. *)
Definition single : WeightedDistributor.t :=
  WeightedDistributor.addAnalyzer a1
    (WeightedDistributor.new
       (WeightedDistributor.mkOptions None None None None)).

Definition analyzerA : Analyzer.t :=
  Analyzer.new clock "a" "http://localhost:8081" (Some 1%Q).

Definition analyzerB : Analyzer.t :=
  Analyzer.new clock "b" "http://localhost:8082" (Some 1%Q).

Definition empty : WeightedDistributor.t :=
  WeightedDistributor.new
    (WeightedDistributor.mkOptions None None None None).

(** [b] admitted before [a]. *)
Definition b_then_a : WeightedDistributor.t :=
  WeightedDistributor.addAnalyzer analyzerA
    (WeightedDistributor.addAnalyzer analyzerB empty).

(** [a] admitted before [b]. *)
Definition a_then_b : WeightedDistributor.t :=
  WeightedDistributor.addAnalyzer analyzerB
    (WeightedDistributor.addAnalyzer analyzerA empty).

(** A health checker configured with both thresholds at 5. *)
Definition checker5 : HealthChecker.t :=
  HealthChecker.new (HealthChecker.mkOptions None None (Some 5) (Some 5)).

(** One probe of [a1] answered by [reply]. *)
Definition probe (reply : HttpReply) (d : WeightedDistributor.t)
  : WeightedDistributor.t :=
  HealthChecker.checkAnalyzerHealth checker5 reply 7 clock "a1"
                                    "http://localhost:8081" d.

(** One dispatch of a well-formed message, answered by [reply]. *)
Definition dispatch (reply : HttpReply) (d : WeightedDistributor.t)
  : WeightedDistributor.t :=
  fst (fst (WeightedDistributor.distribute
              parse (answering reply) 12 clock "started" d
              (constant (1 # 2)))).

(** A server whose queue has room for one packet and already holds
    one. *)
Definition full : Server.t :=
  let d :=
    WeightedDistributor.new
      (WeightedDistributor.mkOptions (Some 1) None None None) in
  Server.mk
    (WeightedDistributor.with_packetQueue
       [WeightedDistributor.mkPacket "packet-0-0" ["earlier"] 0] d)
    (HealthChecker.new (HealthChecker.mkOptions None None None None)).

Definition empty_server : Server.t :=
  Server.new (WeightedDistributor.mkOptions None None None None)
             (HealthChecker.mkOptions None None None None).

End Examples.

(** ** Well-formed registries and scenarios for the further properties *)

(** The registry as the code maintains it: ids are unique and every
    record sits under its own id. *)
Definition registry_ok (m : JsMap.t Analyzer.t) : Prop :=
  NoDup (JsMap.keys m)
  /\ Forall (fun entry => Analyzer.id (snd entry) = fst entry) m.

(** The failures among a sequence of outcomes. *)
Definition failures (os : list Analyzer.outcome) : list Analyzer.outcome :=
  filter (fun o => negb (Analyzer.o_success o)) os.

(** Is the reply a 2xx response? *)
Definition is2xx (reply : HttpReply) : bool :=
  match reply with
  | Responded st _ => (200 <=? st) && (st <? 300)
  | Failed _ => false
  end.

Module Scenarios.

(** [a] and [b] registered, [b] already unhealthy. *)
Definition b_down : WeightedDistributor.t :=
  let down := Failed "connect ECONNREFUSED" in
  HealthChecker.checkAnalyzerHealth
    Examples.checker5 down 5 Examples.clock "b" "http://localhost:8082"
    (HealthChecker.checkAnalyzerHealth
       Examples.checker5 down 5 Examples.clock "b" "http://localhost:8082"
       (HealthChecker.checkAnalyzerHealth
          Examples.checker5 down 5 Examples.clock "b"
          "http://localhost:8082" Examples.a_then_b)).

(** A server with room in its queue and no analyzer. *)
Definition idle : Server.t := Examples.empty_server.

(** A server with the analyzers [a] and [b]. *)
Definition pair : Server.t :=
  Server.mk Examples.a_then_b
            (HealthChecker.new
               (HealthChecker.mkOptions None None None None)).

Definition packet : LogPacket.t :=
  LogPacket.mk "p-1" (Some "agent-7") Examples.clock [Examples.message].

(** Answers of one probing round: [a] is up, [b] is down. *)
Definition replies (analyzerId : string) : HttpReply :=
  if (analyzerId =? "a")%string then Responded 200 "OK"
  else Failed "connect ECONNREFUSED".

Definition parseFloat (text : string) : option Q :=
  if (text =? "0.4")%string then Some (4 # 10) else None.

End Scenarios.







(** The effect of one settled probe on the registry map. *)
Definition probed (replyOf : string -> HttpReply) (elapsedOf : string -> Z)
           (nowOf : string -> string) (m : JsMap.t Analyzer.t)
           (a : Analyzer.status) : JsMap.t Analyzer.t :=
  let k := Analyzer.s_id a in
  match JsMap.get k m with
  | Some stored =>
      JsMap.set k (Analyzer.updateHealth (nowOf k) (is2xx (replyOf k))
                                         (elapsedOf k) stored) m
  | None => m
  end.









(** [d'] differs from [d] at most in the registry, the event log and a
    grown [errors] counter. *)
Definition off_queue (d d' : WeightedDistributor.t) : Prop :=
  WeightedDistributor.maxQueueSize d' = WeightedDistributor.maxQueueSize d
  /\ WeightedDistributor.batchSize d' = WeightedDistributor.batchSize d
  /\ WeightedDistributor.packetQueue d' = WeightedDistributor.packetQueue d
  /\ WeightedDistributor.isProcessing d'
     = WeightedDistributor.isProcessing d
  /\ WeightedDistributor.packetsReceived (WeightedDistributor.stats d')
     = WeightedDistributor.packetsReceived (WeightedDistributor.stats d)
  /\ WeightedDistributor.packetsProcessed (WeightedDistributor.stats d')
     = WeightedDistributor.packetsProcessed (WeightedDistributor.stats d)
  /\ WeightedDistributor.packetsDropped (WeightedDistributor.stats d')
     = WeightedDistributor.packetsDropped (WeightedDistributor.stats d)
  /\ WeightedDistributor.totalLatency (WeightedDistributor.stats d')
     = WeightedDistributor.totalLatency (WeightedDistributor.stats d)
  /\ WeightedDistributor.avgLatency (WeightedDistributor.stats d')
     = WeightedDistributor.avgLatency (WeightedDistributor.stats d)
  /\ WeightedDistributor.errors (WeightedDistributor.stats d)
     <= WeightedDistributor.errors (WeightedDistributor.stats d').

(** What holds of a running distributor between event-loop turns; [cap]
    and [size] are the configured queue capacity and batch size. *)
Definition worker_ok (cap size : Z) (w : Worker.t) : Prop :=
  let d := Worker.distributor w in
  let s := WeightedDistributor.stats d in
  let queued := Z.of_nat (List.length (WeightedDistributor.packetQueue d)) in
  let taken := Z.of_nat (List.length (Worker.batch w)) in
  WeightedDistributor.maxQueueSize d = cap
  /\ WeightedDistributor.batchSize d = size
  /\ WeightedDistributor.packetsReceived s
     = WeightedDistributor.packetsProcessed s
       + WeightedDistributor.packetsDropped s + queued + taken
  /\ queued <= Z.max 0 cap
  /\ taken <= Z.max 0 size
  /\ WeightedDistributor.isProcessing d
     = match Worker.batch w with [] => false | _ :: _ => true end
  /\ registry_ok (WeightedDistributor.analyzers d)
  /\ 0 <= WeightedDistributor.packetsProcessed s
  /\ 0 <= WeightedDistributor.packetsDropped s
  /\ 0 <= WeightedDistributor.errors s
  /\ (WeightedDistributor.avgLatency s
      * inject_Z (WeightedDistributor.packetsProcessed s)
      == inject_Z (WeightedDistributor.totalLatency s))%Q.





(** * Properties *)

(** ** Analyzer records *)

Section AnalyzerFacts.
Import Analyzer.

(** A property that holds of the start record and is kept by every
    recorded outcome holds after any run. *)
Lemma run_invariant (P : t -> Prop) (a : t) (os : list outcome) :
  P a -> (forall b o, P b -> P (record b o)) -> P (run a os).
Proof.
  intros Ha Hstep. unfold run.
  revert a Ha. induction os as [|o os IH]; intros a Ha; simpl.
  - exact Ha.
  - apply IH. apply Hstep. exact Ha.
Qed.

Lemma run_app (a : t) (os1 os2 : list outcome) :
  run a (os1 ++ os2)%list = run (run a os1) os2.
Proof. unfold run. apply fold_left_app. Qed.

Lemma updateHealth_success_resets now rt a :
  consecutiveFailures (updateHealth now true rt a) = 0.
Proof. reflexivity. Qed.

Lemma updateHealth_failure_resets now rt a :
  consecutiveSuccesses (updateHealth now false rt a) = 0.
Proof. reflexivity. Qed.

Lemma updateHealth_exclusive now success rt a :
  consecutiveSuccesses (updateHealth now success rt a) = 0
  \/ consecutiveFailures (updateHealth now success rt a) = 0.
Proof. destruct success; [right | left]; reflexivity. Qed.

Lemma counts_ok_new now id endpoint weight :
  counts_ok (new now id endpoint weight).
Proof. unfold counts_ok; simpl; lia. Qed.

Lemma counts_ok_record a o : counts_ok a -> counts_ok (record a o).
Proof.
  unfold counts_ok, record, updateHealth.
  destruct (o_success o); simpl; lia.
Qed.

Lemma counts_ok_run now id endpoint weight os :
  counts_ok (run (new now id endpoint weight) os).
Proof.
  apply run_invariant.
  - apply counts_ok_new.
  - intros b o. apply counts_ok_record.
Qed.

Lemma getFailureRate_bounds a :
  counts_ok a ->
  exists rate, getFailureRate a = Some rate /\ (0 <= rate <= 100)%Q.
Proof.
  unfold counts_ok, getFailureRate, js_div. intros [Hf Hc].
  destruct (totalChecks a) as [|c|c] eqn:Ec; simpl.
  - exists 0%Q. split; [reflexivity|]. split; unfold Qle; simpl; lia.
  - eexists. split; [reflexivity|].
    unfold Qle, Qdiv, Qmult, Qinv, inject_Z; simpl. split; nia.
  - lia.
Qed.
End AnalyzerFacts.

(** C6.  Starting from a freshly constructed analyzer record, after any
    finite sequence of [updateHealth] calls at least one of
    [consecutiveSuccesses] and [consecutiveFailures] is 0; moreover every
    success leaves [consecutiveFailures] at 0 and every failure leaves
    [consecutiveSuccesses] at 0, whatever the record was before. *)
Theorem consecutive_counters_exclusive :
  forall (now id endpoint : string) (weight : option Q)
         (os : list Analyzer.outcome),
    let a := Analyzer.run (Analyzer.new now id endpoint weight) os in
    (Analyzer.consecutiveSuccesses a = 0
     \/ Analyzer.consecutiveFailures a = 0)
    /\ (forall t rt b,
          Analyzer.consecutiveFailures (Analyzer.updateHealth t true rt b)
          = 0)
    /\ (forall t rt b,
          Analyzer.consecutiveSuccesses (Analyzer.updateHealth t false rt b)
          = 0).
Proof.
  intros now id endpoint weight os a. split; [|split].
  - subst a.
    apply (run_invariant
             (fun b => Analyzer.consecutiveSuccesses b = 0
                       \/ Analyzer.consecutiveFailures b = 0)).
    + left; reflexivity.
    + intros b o _. apply updateHealth_exclusive.
  - intros; apply updateHealth_success_resets.
  - intros; apply updateHealth_failure_resets.
Qed.

(** C10.  [getFailureRate] never divides by zero: on every record it
    returns a finite number, which is 0 whenever [totalChecks] is 0; and on
    every record reached from a fresh one by a finite sequence of
    [updateHealth] calls, where [totalFailures <= totalChecks] holds, the
    rate lies between 0 and 100. *)
Theorem getFailureRate_safe :
  (forall a : Analyzer.t, exists rate, Analyzer.getFailureRate a = Some rate)
  /\ (forall id endpoint weight healthy lastSeen cf cs totalFailures rt,
        Analyzer.getFailureRate
          (Analyzer.mk id endpoint weight healthy lastSeen cf cs 0
                       totalFailures rt) = Some 0%Q)
  /\ (forall (now id endpoint : string) (weight : option Q)
             (os : list Analyzer.outcome),
        let a := Analyzer.run (Analyzer.new now id endpoint weight) os in
        Analyzer.totalFailures a <= Analyzer.totalChecks a
        /\ exists rate,
            Analyzer.getFailureRate a = Some rate
            /\ (0 <= rate <= 100)%Q).
Proof.
  split; [|split].
  - intros a. unfold Analyzer.getFailureRate, js_div.
    destruct (Analyzer.totalChecks a =? 0); simpl; eexists; reflexivity.
  - reflexivity.
  - intros now id endpoint weight os a.
    pose proof (counts_ok_run now id endpoint weight os) as Hok.
    fold a in Hok. split.
    + apply Hok.
    + apply getFailureRate_bounds. exact Hok.
Qed.

(** ** Log messages *)

Lemma or_else_truthy (s fallback : string) :
  truthy s = true -> or_else (Some s) fallback = s.
Proof. intros H. unfold or_else. rewrite H. reflexivity. Qed.

(** C9.  For every valid [LogMessage] [m], building a message back from
    its wire form, [LogMessage.fromJSON (m.toJSON())], gives a record equal
    to [m] on each of the fields id, timestamp, level, source, message and
    metadata (hence equal to [m]), whatever identifier and time the
    constructor first assigned. *)
Theorem fromJSON_toJSON_roundtrip :
  forall (uuid : nat -> string) (now : string) (n : nat)
         (m : LogMessage.t),
    LogMessage.isValid m = true ->
    let m' := fst (LogMessage.fromJSON uuid now (LogMessage.toJSON m) n) in
    LogMessage.id m' = LogMessage.id m
    /\ LogMessage.timestamp m' = LogMessage.timestamp m
    /\ LogMessage.level m' = LogMessage.level m
    /\ LogMessage.source m' = LogMessage.source m
    /\ LogMessage.message m' = LogMessage.message m
    /\ LogMessage.metadata m' = LogMessage.metadata m
    /\ m' = m.
Proof.
  intros uuid now n m Hvalid m'.
  unfold LogMessage.isValid in Hvalid.
  repeat (apply andb_true_iff in Hvalid; destruct Hvalid as [Hvalid ?]).
  assert (Hid : LogMessage.id m' = LogMessage.id m).
  { subst m'. cbn. apply or_else_truthy. assumption. }
  assert (Hts : LogMessage.timestamp m' = LogMessage.timestamp m).
  { subst m'. cbn. apply or_else_truthy. assumption. }
  repeat split; try assumption; try reflexivity.
  destruct m as [i t l s msg md]. subst m'. cbn in *.
  rewrite Hid, Hts. reflexivity.
Qed.

Lemma fromJSON_toJSON_roundtrip_witness :
  LogMessage.isValid Examples.message = true
  /\ fst (LogMessage.fromJSON Examples.uuid "later"
                              (LogMessage.toJSON Examples.message) 4%nat)
     = Examples.message.
Proof.
  split.
  - reflexivity.
  - apply (fromJSON_toJSON_roundtrip Examples.uuid "later" 4%nat
                                     Examples.message).
    reflexivity.
Defined.

(** ** The registry map *)

Section JsMapFacts.
Context {V : Type}.
Implicit Types (m : JsMap.t V) (k : string) (v : V).

Lemma get_set_same k v m : JsMap.get k (JsMap.set k v m) = Some v.
Proof.
  induction m as [|[k' v'] m IH]; simpl.
  - rewrite String.eqb_refl. reflexivity.
  - destruct (k' =? k)%string eqn:E; simpl.
    + rewrite String.eqb_refl. reflexivity.
    + rewrite E. exact IH.
Qed.

Lemma get_set_other k k' v m :
  k <> k' -> JsMap.get k' (JsMap.set k v m) = JsMap.get k' m.
Proof.
  intros Hne. induction m as [|[k0 v0] m IH]; simpl.
  - apply String.eqb_neq in Hne. rewrite Hne. reflexivity.
  - destruct (k0 =? k)%string eqn:E; simpl.
    + apply String.eqb_eq in E. subst k0.
      apply String.eqb_neq in Hne. rewrite Hne. reflexivity.
    + destruct (k0 =? k')%string; [reflexivity | exact IH].
Qed.

Lemma get_delete_same k m : JsMap.get k (JsMap.delete k m) = None.
Proof.
  unfold JsMap.delete.
  induction m as [|[k' v'] m IH]; simpl; [reflexivity|].
  destruct (k' =? k)%string eqn:E; simpl.
  - exact IH.
  - rewrite E. exact IH.
Qed.

Lemma get_delete_other k k' m :
  k <> k' -> JsMap.get k' (JsMap.delete k m) = JsMap.get k' m.
Proof.
  intros Hne. unfold JsMap.delete.
  induction m as [|[k0 v0] m IH]; simpl; [reflexivity|].
  destruct (k0 =? k)%string eqn:E; simpl.
  - apply String.eqb_eq in E. subst k0.
    apply String.eqb_neq in Hne. rewrite Hne. exact IH.
  - destruct (k0 =? k')%string; [reflexivity | exact IH].
Qed.

(** A key that is absent is appended: insertion order is kept. *)
Lemma set_absent k v m :
  JsMap.get k m = None -> JsMap.set k v m = (m ++ [(k, v)])%list.
Proof.
  induction m as [|[k' v'] m IH]; simpl; intros H; [reflexivity|].
  destruct (k' =? k)%string; [discriminate|].
  rewrite IH by exact H. reflexivity.
Qed.

(** A key that is present keeps its place. *)
Lemma set_present_keys k v m :
  JsMap.get k m <> None -> JsMap.keys (JsMap.set k v m) = JsMap.keys m.
Proof.
  unfold JsMap.keys.
  induction m as [|[k' v'] m IH]; simpl; intros H; [congruence|].
  destruct (k' =? k)%string eqn:E; simpl.
  - apply String.eqb_eq in E. subst. reflexivity.
  - rewrite IH by exact H. reflexivity.
Qed.
End JsMapFacts.

Section RegistryFacts.
Import WeightedDistributor.

Lemma removeAnalyzer_absent analyzerId d :
  JsMap.get analyzerId (analyzers d) = None ->
  removeAnalyzer analyzerId d = d.
Proof. intros H. unfold removeAnalyzer. rewrite H. reflexivity. Qed.

Lemma removeAnalyzer_removes analyzerId d :
  JsMap.get analyzerId (analyzers (removeAnalyzer analyzerId d)) = None.
Proof.
  unfold removeAnalyzer.
  destruct (JsMap.get analyzerId (analyzers d)) eqn:E; simpl.
  - apply get_delete_same.
  - exact E.
Qed.

Lemma removeAnalyzer_other analyzerId k d :
  analyzerId <> k ->
  JsMap.get k (analyzers (removeAnalyzer analyzerId d))
  = JsMap.get k (analyzers d).
Proof.
  intros Hne. unfold removeAnalyzer.
  destruct (JsMap.get analyzerId (analyzers d)); simpl.
  - apply get_delete_other. exact Hne.
  - reflexivity.
Qed.

Lemma removeAnalyzer_idempotent analyzerId d :
  removeAnalyzer analyzerId (removeAnalyzer analyzerId d)
  = removeAnalyzer analyzerId d.
Proof. apply removeAnalyzer_absent. apply removeAnalyzer_removes. Qed.

Lemma addAnalyzer_lookup analyzer d k :
  JsMap.get k (analyzers (addAnalyzer analyzer d))
  = if (Analyzer.id analyzer =? k)%string then Some analyzer
    else JsMap.get k (analyzers d).
Proof.
  unfold addAnalyzer; simpl.
  destruct (Analyzer.id analyzer =? k)%string eqn:E.
  - apply String.eqb_eq in E. subst k. apply get_set_same.
  - apply String.eqb_neq in E. apply get_set_other. exact E.
Qed.
End RegistryFacts.

(** C8 (as amended).  Evicting the same id twice in a row leaves the
    distributor in the same state as evicting it once.  Admitting an id
    that is already present and evicting it before admitting agree on the
    record stored under every id: under the admitted id it is the new
    record, with the new endpoint and weight, all four health counters at
    zero and [healthy = true]; every other id keeps its record.  The
    iteration order of the registry is not part of the agreement. *)
Theorem evict_idempotent_add_replaces :
  forall (d : WeightedDistributor.t) (now id endpoint : string)
         (weight : Q),
    let fresh := Analyzer.new now id endpoint (Some weight) in
    let replaced := WeightedDistributor.addAnalyzer fresh d in
    let moved :=
      WeightedDistributor.addAnalyzer
        fresh (WeightedDistributor.removeAnalyzer id d) in
    WeightedDistributor.removeAnalyzer
      id (WeightedDistributor.removeAnalyzer id d)
    = WeightedDistributor.removeAnalyzer id d
    /\ (forall k,
          JsMap.get k (WeightedDistributor.analyzers replaced)
          = JsMap.get k (WeightedDistributor.analyzers moved))
    /\ (exists a,
          JsMap.get id (WeightedDistributor.analyzers replaced) = Some a
          /\ Analyzer.endpoint a = endpoint
          /\ Analyzer.weight a = weight
          /\ Analyzer.healthy a = true
          /\ Analyzer.consecutiveFailures a = 0
          /\ Analyzer.consecutiveSuccesses a = 0
          /\ Analyzer.totalChecks a = 0
          /\ Analyzer.totalFailures a = 0).
Proof.
  intros d now id endpoint weight fresh replaced moved.
  split; [|split].
  - apply removeAnalyzer_idempotent.
  - intros k. subst replaced moved.
    rewrite !addAnalyzer_lookup.
    destruct (Analyzer.id fresh =? k)%string eqn:E; [reflexivity|].
    symmetry. apply removeAnalyzer_other.
    apply String.eqb_neq in E. exact E.
  - exists fresh. subst replaced.
    rewrite addAnalyzer_lookup. simpl. rewrite String.eqb_refl.
    repeat split; reflexivity.
Qed.

(** C8, the claim as stated fails: with [a] and [b] registered in this
    order, admitting [a] again keeps [a] in front of [b], whereas evicting
    [a] first and then admitting it moves it behind [b]; the two
    registries differ, and so does what the selector returns on the same
    draw. *)
Lemma replace_differs_from_evict_then_add :
  let d := Examples.a_then_b in
  let replaced := WeightedDistributor.addAnalyzer Examples.analyzerA d in
  let moved :=
    WeightedDistributor.addAnalyzer
      Examples.analyzerA (WeightedDistributor.removeAnalyzer "a" d) in
  JsMap.keys (WeightedDistributor.analyzers replaced) = ["a"; "b"]
  /\ JsMap.keys (WeightedDistributor.analyzers moved) = ["b"; "a"]
  /\ WeightedDistributor.analyzers replaced
     <> WeightedDistributor.analyzers moved
  /\ fst (WeightedDistributor.selectAnalyzer
            replaced (Examples.constant (1 # 4)))
     = Some Examples.analyzerA
  /\ fst (WeightedDistributor.selectAnalyzer
            moved (Examples.constant (1 # 4)))
     = Some Examples.analyzerB.
Proof.
  cbv zeta. repeat split; try reflexivity.
  intros H. apply (f_equal JsMap.keys) in H. vm_compute in H. discriminate.
Qed.

(** ** Admission through the HTTP surface *)

Lemma weight_or_default_nonzero (weight : option Q) :
  ~ (Server.weight_or_default weight == 0)%Q.
Proof.
  unfold Server.weight_or_default.
  destruct weight as [w|]; [|discriminate].
  destruct (Qeq_bool w 0) eqn:E; [discriminate|].
  intros H. apply Qeq_bool_iff in H. congruence.
Qed.

(** C7 (as amended).  [POST /analyzers] refuses a request, with status
    400 and without touching the server, exactly when the id or the
    endpoint is missing or empty; the weight is never a reason to refuse.
    Otherwise the request succeeds with status 200 and the record stored
    under the id carries the supplied weight when that is a non-zero
    number, negative values included, and the default 1.0 when the weight
    is absent or zero; so no record of weight zero is stored by an
    admission. *)
Theorem postAnalyzers_weight_handling :
  forall (now : string) (body : Server.AnalyzerBody) (srv : Server.t),
    let out := Server.postAnalyzers now body srv in
    if truthy_opt (Server.b_id body) && truthy_opt (Server.b_endpoint body)
    then
      Server.statusCode (snd out) = 200
      /\ exists a,
          JsMap.get (or_else (Server.b_id body) "")
                    (WeightedDistributor.analyzers
                       (Server.distributor (fst out))) = Some a
          /\ Analyzer.weight a
             = match Server.b_weight body with
               | Some w => if Qeq_bool w 0 then 1%Q else w
               | None => 1%Q
               end
          /\ ~ (Analyzer.weight a == 0)%Q
    else
      Server.statusCode (snd out) = 400 /\ fst out = srv.
Proof.
  intros now body srv out. subst out. unfold Server.postAnalyzers.
  destruct (truthy_opt (Server.b_id body)) eqn:Hid;
    destruct (truthy_opt (Server.b_endpoint body)) eqn:Hep; simpl;
    try (split; reflexivity).
  split; [reflexivity|].
  eexists. split; [apply get_set_same|].
  split; [reflexivity|]. simpl.
  apply weight_or_default_nonzero.
Qed.

(** C7, the claim as stated fails: a request with weight -1 is answered
    with status 200, and a record of weight -1 is stored. *)
Lemma negative_weight_accepted :
  let body :=
    Server.mkAnalyzerBody (Some "a1") (Some "http://localhost:8081")
                          (Some (-1 # 1)) in
  let out := Server.postAnalyzers Examples.clock body Examples.empty_server in
  Server.statusCode (snd out) = 200
  /\ option_map Analyzer.weight
       (JsMap.get "a1"
          (WeightedDistributor.analyzers (Server.distributor (fst out))))
     = Some (-1 # 1)
  /\ (-1 # 1 <= 0)%Q.
Proof.
  cbv zeta. split; [reflexivity|]. split; [reflexivity|].
  unfold Qle; simpl; lia.
Qed.

(** ** The weighted selector *)

Section SelectorFacts.
Import WeightedDistributor.

Lemma walk_some r l : forall c a,
  walk r c l = Some a ->
  exists before after,
    l = (before ++ a :: after)%list
    /\ (r <= cumulative c (before ++ [a]))%Q
    /\ forall pre x suf,
        before = (pre ++ x :: suf)%list ->
        ~ (r <= cumulative c (pre ++ [x]))%Q.
Proof.
  induction l as [|b rest IH]; intros c a Hwalk; simpl in Hwalk.
  - discriminate.
  - destruct (Qle_bool r (c + Analyzer.weight b)) eqn:Hle.
    + injection Hwalk as <-. exists [], rest.
      split; [reflexivity|]. split.
      * apply Qle_bool_iff. exact Hle.
      * intros [|? ?] x suf Hsplit; discriminate.
    + destruct (IH _ _ Hwalk) as (before & after & Hl & Hreach & Hfirst).
      exists (b :: before), after. split; [subst rest; reflexivity|].
      split; [exact Hreach|].
      intros [|p pre] x suf Hsplit; simpl in Hsplit.
      * injection Hsplit as <- _. unfold cumulative; simpl.
        intros Hcontra. apply Qle_bool_iff in Hcontra. congruence.
      * injection Hsplit as <- Hbefore.
        apply (Hfirst pre x suf Hbefore).
Qed.

Lemma walk_none r l : forall c,
  walk r c l = None ->
  forall pre x suf,
    l = (pre ++ x :: suf)%list ->
    ~ (r <= cumulative c (pre ++ [x]))%Q.
Proof.
  induction l as [|b rest IH]; intros c Hwalk pre x suf Hsplit.
  - destruct pre; discriminate.
  - simpl in Hwalk.
    destruct (Qle_bool r (c + Analyzer.weight b)) eqn:Hle; [discriminate|].
    destruct pre as [|p pre]; simpl in Hsplit.
    + injection Hsplit as <- _. unfold cumulative; simpl.
      intros Hcontra. apply Qle_bool_iff in Hcontra. congruence.
    + injection Hsplit as <- Hrest.
      apply (IH _ Hwalk pre x suf Hrest).
Qed.

Lemma last_of_nonempty (l : list Analyzer.t) :
  l <> [] ->
  exists front x,
    l = (front ++ [x])%list /\ List.last (map Some l) None = Some x.
Proof.
  intros Hne. destruct (exists_last Hne) as (front & x & ->).
  exists front, x. split; [reflexivity|].
  rewrite map_app. simpl. apply last_last.
Qed.

End SelectorFacts.

(** C4 (as amended).  The selector visits the healthy analyzers in the
    iteration order of the registry map, which is the order of first
    admission (a new id goes to the end, a re-admitted id keeps its
    place), not the lexicographic order of the ids.  With at least two
    healthy analyzers and a non-zero total weight [S] it draws once, and
    with [r] the draw scaled by [S] it returns the first analyzer, in that
    order, whose cumulative weight [c] satisfies [r <= c] (not strictly),
    falling back to the last one.  With exactly one healthy analyzer it
    returns that analyzer without drawing; with none, or with total weight
    zero, it returns nothing without drawing. *)
Theorem selectAnalyzer_walks_insertion_order :
  forall (d : WeightedDistributor.t) (g : Rng),
    WeightedDistributor.getHealthyAnalyzers d
    = filter Analyzer.healthy
             (JsMap.values (WeightedDistributor.analyzers d))
    /\ (forall analyzer,
          match JsMap.get (Analyzer.id analyzer)
                          (WeightedDistributor.analyzers d) with
          | None =>
              WeightedDistributor.analyzers
                (WeightedDistributor.addAnalyzer analyzer d)
              = (WeightedDistributor.analyzers d
                   ++ [(Analyzer.id analyzer, analyzer)])%list
          | Some _ =>
              JsMap.keys (WeightedDistributor.analyzers
                            (WeightedDistributor.addAnalyzer analyzer d))
              = JsMap.keys (WeightedDistributor.analyzers d)
          end)
    /\ match WeightedDistributor.getHealthyAnalyzers d with
       | [] => WeightedDistributor.selectAnalyzer d g = (None, g)
       | [only] => WeightedDistributor.selectAnalyzer d g = (Some only, g)
       | healthy =>
           if Qeq_bool (WeightedDistributor.getTotalWeight d) 0
           then WeightedDistributor.selectAnalyzer d g = (None, g)
           else
             exists chosen,
               WeightedDistributor.selectAnalyzer d g
               = (Some chosen, advance g)
               /\ first_reaching
                    (draws g (drawn g)
                     * WeightedDistributor.getTotalWeight d)%Q
                    healthy chosen
       end.
Proof.
  intros d g. split; [reflexivity|]. split.
  - intros analyzer.
    destruct (JsMap.get (Analyzer.id analyzer)
                        (WeightedDistributor.analyzers d)) eqn:E; simpl.
    + apply set_present_keys. congruence.
    + apply set_absent. exact E.
  - unfold WeightedDistributor.selectAnalyzer.
    destruct (WeightedDistributor.getHealthyAnalyzers d)
      as [|a1 [|a2 rest]] eqn:EH; try reflexivity.
    destruct (Qeq_bool (WeightedDistributor.getTotalWeight d) 0);
      [reflexivity|].
    cbv zeta. unfold Math_random at 1.
    set (r := (draws g (drawn g)
               * WeightedDistributor.getTotalWeight d)%Q).
    destruct (WeightedDistributor.walk r 0 (a1 :: a2 :: rest))
      as [chosen|] eqn:Hwalk.
    + exists chosen. split; [reflexivity|]. left.
      apply walk_some. exact Hwalk.
    + destruct (last_of_nonempty (a1 :: a2 :: rest)) as (front & x & Hl & Hlast);
        [discriminate|].
      exists x. split.
      * rewrite Hlast. reflexivity.
      * right. split.
        -- apply walk_none. exact Hwalk.
        -- exists front. exact Hl.
Qed.

(** C4, the claim as stated fails on both counts.  Order: with [b]
    admitted before [a], both of weight 1, and the draw 1/4 (so r = 1/2),
    the code returns [b], the first in insertion order, where the
    lexicographic walk of the specification returns [a].  Strictness: with
    [a] before [b] and the draw 1/2 (so r = 1, the cumulative weight at
    [a]), the code returns [a] because 1 <= 1, where the strict test of the
    specification passes on to [b]. *)
Lemma selector_order_and_tie_differ :
  fst (WeightedDistributor.selectAnalyzer
         Examples.b_then_a (Examples.constant (1 # 4)))
  = Some Examples.analyzerB
  /\ SpecSelector.select
       (WeightedDistributor.getHealthyAnalyzers Examples.b_then_a) (1 # 4)
     = Some Examples.analyzerA
  /\ fst (WeightedDistributor.selectAnalyzer
            Examples.a_then_b (Examples.constant (1 # 2)))
     = Some Examples.analyzerA
  /\ SpecSelector.select
       (WeightedDistributor.getHealthyAnalyzers Examples.a_then_b) (1 # 2)
     = Some Examples.analyzerB
  /\ Examples.analyzerA <> Examples.analyzerB.
Proof.
  repeat split; try reflexivity. discriminate.
Qed.

(** ** Dispatch of one message *)

Section DispatchFacts.
Import WeightedDistributor.

Variable JSON_parse : string -> Result LogMessage.json.

Lemma updateAnalyzerHealth_stored now analyzerId success rt d stored :
  JsMap.get analyzerId (analyzers d) = Some stored ->
  analyzers (updateAnalyzerHealth now analyzerId success rt d)
  = JsMap.set analyzerId (Analyzer.updateHealth now success rt stored)
              (analyzers d)
  /\ stats (updateAnalyzerHealth now analyzerId success rt d) = stats d.
Proof.
  intros H. unfold updateAnalyzerHealth. rewrite H. split; reflexivity.
Qed.

Lemma updateAnalyzerHealth_eq now analyzerId success rt d stored :
  JsMap.get analyzerId (analyzers d) = Some stored ->
  updateAnalyzerHealth now analyzerId success rt d
  = let analyzer' := Analyzer.updateHealth now success rt stored in
    emit (analyzerHealthChanged analyzer')
         (with_analyzers
            (JsMap.set analyzerId analyzer' (analyzers d)) d).
Proof.
  intros H. unfold updateAnalyzerHealth. rewrite H. reflexivity.
Qed.

(** A 4xx answer passes [validateStatus] and is then thrown by the
    status check of [sendToAnalyzer]. *)
Lemma attempt_rejected net analyzer message logData st txt :
  JSON_parse message = Ok logData ->
  net (analyzerUrl analyzer) (payload logData) = Responded st txt ->
  (st < 200 \/ 300 <= st) -> st < 500 ->
  attempt JSON_parse net analyzer message
  = Throw ("Analyzer returned status " ++ show st ++ ": " ++ txt).
Proof.
  intros Hparse Hnet Hnot2xx Hlt. unfold attempt.
  rewrite Hparse, Hnet. simpl. unfold validateStatus.
  replace (st <? 500) with true by (symmetry; apply Z.ltb_lt; lia).
  simpl.
  replace ((200 <=? st) && (st <? 300)) with false; [reflexivity|].
  symmetry. apply andb_false_iff.
  destruct Hnot2xx; [left; apply Z.leb_gt | right; apply Z.ltb_ge]; lia.
Qed.

(** A 5xx answer is rejected by axios itself. *)
Lemma attempt_server_error net analyzer message logData st txt :
  JSON_parse message = Ok logData ->
  net (analyzerUrl analyzer) (payload logData) = Responded st txt ->
  500 <= st ->
  attempt JSON_parse net analyzer message
  = Throw ("Request failed with status code " ++ show st).
Proof.
  intros Hparse Hnet Hge. unfold attempt.
  rewrite Hparse, Hnet. simpl. unfold validateStatus.
  replace (st <? 500) with false by (symmetry; apply Z.ltb_ge; lia).
  reflexivity.
Qed.

Lemma attempt_accepted net analyzer message logData st txt :
  JSON_parse message = Ok logData ->
  net (analyzerUrl analyzer) (payload logData) = Responded st txt ->
  200 <= st < 300 ->
  attempt JSON_parse net analyzer message = Ok logData.
Proof.
  intros Hparse Hnet Hst. unfold attempt.
  rewrite Hparse, Hnet. simpl. unfold validateStatus.
  replace (st <? 500) with true by (symmetry; apply Z.ltb_lt; lia).
  simpl.
  replace ((200 <=? st) && (st <? 300)) with true; [reflexivity|].
  symmetry. apply andb_true_iff.
  split; [apply Z.leb_le | apply Z.ltb_lt]; lia.
Qed.

(** What [distribute] leaves behind when the send throws: the failure
    is recorded by the [catch] of [sendToAnalyzer] and once more by the
    [catch] of [distribute]. *)
Lemma distribute_failed net elapsed now message d g analyzer g' stored e :
  selectAnalyzer d g = (Some analyzer, g') ->
  JsMap.get (Analyzer.id analyzer) (analyzers d) = Some stored ->
  attempt JSON_parse net analyzer message = Throw e ->
  let out := distribute JSON_parse net elapsed now message d g in
  let once := Analyzer.updateHealth now false elapsed stored in
  let twice := Analyzer.updateHealth now false 0 once in
  snd out
  = Throw ("Failed to send to analyzer " ++ Analyzer.id analyzer
             ++ ": " ++ e)
  /\ snd (fst out) = g'
  /\ analyzers (fst (fst out))
     = JsMap.set (Analyzer.id analyzer) twice
                 (JsMap.set (Analyzer.id analyzer) once (analyzers d))
  /\ errors (stats (fst (fst out))) = errors (stats d) + 1.
Proof.
  intros Hsel Hget Hatt. cbv zeta.
  unfold distribute. rewrite Hsel.
  unfold sendToAnalyzer. rewrite Hatt.
  rewrite (updateAnalyzerHealth_eq now _ false elapsed d stored Hget).
  erewrite updateAnalyzerHealth_eq by (simpl; apply get_set_same).
  repeat split; reflexivity.
Qed.

(** What [distribute] leaves behind when the analyzer accepts: a single
    recorded success. *)
Lemma distribute_delivered net elapsed now message d g analyzer g' stored
      logData :
  selectAnalyzer d g = (Some analyzer, g') ->
  JsMap.get (Analyzer.id analyzer) (analyzers d) = Some stored ->
  attempt JSON_parse net analyzer message = Ok logData ->
  let out := distribute JSON_parse net elapsed now message d g in
  snd out = Ok true
  /\ analyzers (fst (fst out))
     = JsMap.set (Analyzer.id analyzer)
                 (Analyzer.updateHealth now true elapsed stored)
                 (analyzers d)
  /\ stats (fst (fst out)) = stats d.
Proof.
  intros Hsel Hget Hatt. cbv zeta.
  unfold distribute. rewrite Hsel.
  unfold sendToAnalyzer. rewrite Hatt.
  rewrite (updateAnalyzerHealth_eq now _ true elapsed d stored Hget).
  repeat split; reflexivity.
Qed.
End DispatchFacts.

(** C1 (as amended).  For every dispatched message whose analyzer answers
    with a 4xx status, the dispatch fails with a message-level error
    ([errors] grows by one) and the outcome is recorded as an analyzer
    failure exactly as for a 5xx answer: on the record stored under the
    analyzer's id [consecutiveFailures] and [totalFailures] grow,
    [consecutiveSuccesses] is reset to 0, [healthy] is false as soon as
    [consecutiveFailures] has reached 3, and the registry is the one a 5xx
    answer to the same message would have left. *)
Theorem rejected_message_counts_as_failure :
  forall (JSON_parse : string -> Result LogMessage.json)
         (net : string -> LogMessage.json -> HttpReply)
         (elapsed : Z) (now message : string)
         (d : WeightedDistributor.t) (g g' : Rng)
         (analyzer stored : Analyzer.t) (logData : LogMessage.json)
         (st : Z) (txt : string),
    WeightedDistributor.selectAnalyzer d g = (Some analyzer, g') ->
    JsMap.get (Analyzer.id analyzer) (WeightedDistributor.analyzers d)
    = Some stored ->
    JSON_parse message = Ok logData ->
    net (WeightedDistributor.analyzerUrl analyzer)
        (WeightedDistributor.payload logData) = Responded st txt ->
    400 <= st < 500 ->
    let out :=
      WeightedDistributor.distribute JSON_parse net elapsed now message d g
    in
    let d' := fst (fst out) in
    (exists e, snd out = Throw e)
    /\ WeightedDistributor.errors (WeightedDistributor.stats d')
       = WeightedDistributor.errors (WeightedDistributor.stats d) + 1
    /\ (exists a',
          JsMap.get (Analyzer.id analyzer) (WeightedDistributor.analyzers d')
          = Some a'
          /\ Analyzer.consecutiveFailures stored
             < Analyzer.consecutiveFailures a'
          /\ Analyzer.totalFailures stored < Analyzer.totalFailures a'
          /\ Analyzer.consecutiveSuccesses a' = 0
          /\ (3 <= Analyzer.consecutiveFailures a' ->
              Analyzer.healthy a' = false))
    /\ (forall (net5 : string -> LogMessage.json -> HttpReply)
               (st5 : Z) (txt5 : string),
          net5 (WeightedDistributor.analyzerUrl analyzer)
               (WeightedDistributor.payload logData) = Responded st5 txt5 ->
          500 <= st5 ->
          WeightedDistributor.analyzers
            (fst (fst (WeightedDistributor.distribute
                         JSON_parse net5 elapsed now message d g)))
          = WeightedDistributor.analyzers d').
Proof.
  intros JSON_parse net elapsed now message d g g' analyzer stored logData
         st txt Hsel Hget Hparse Hnet Hst out d'.
  assert (Hatt := attempt_rejected JSON_parse net analyzer message logData
                    st txt Hparse Hnet ltac:(lia) ltac:(lia)).
  destruct (distribute_failed JSON_parse net elapsed now message d g analyzer
              g' stored _ Hsel Hget Hatt) as (Hres & _ & Han & Herr).
  fold out in Hres, Han, Herr. fold d' in Han, Herr.
  split; [eexists; exact Hres|]. split; [exact Herr|]. split.
  - eexists. split; [rewrite Han; apply get_set_same|].
    simpl. repeat split; try lia.
    intros H3. apply Z.leb_le in H3. rewrite H3. reflexivity.
  - intros net5 st5 txt5 Hnet5 Hst5.
    assert (Hatt5 := attempt_server_error JSON_parse net5 analyzer message
                       logData st5 txt5 Hparse Hnet5 Hst5).
    destruct (distribute_failed JSON_parse net5 elapsed now message d g
                analyzer g' stored _ Hsel Hget Hatt5) as (_ & _ & Han5 & _).
    rewrite Han5, Han. reflexivity.
Qed.

Lemma rejected_message_counts_as_failure_witness :
  WeightedDistributor.selectAnalyzer
    Examples.single (Examples.constant (1 # 2))
  = (Some Examples.a1, Examples.constant (1 # 2))
  /\ JsMap.get "a1" (WeightedDistributor.analyzers Examples.single)
     = Some Examples.a1
  /\ Examples.parse "started" = Ok Examples.logData
  /\ 400 <= 404 < 500
  /\ exists a',
      JsMap.get "a1"
        (WeightedDistributor.analyzers
           (Examples.dispatch (Responded 404 "Not Found") Examples.single))
      = Some a'
      /\ Analyzer.consecutiveFailures Examples.a1
         < Analyzer.consecutiveFailures a'.
Proof.
  split; [reflexivity|]. split; [reflexivity|]. split; [reflexivity|].
  split; [lia|].
  destruct (rejected_message_counts_as_failure
              Examples.parse
              (Examples.answering (Responded 404 "Not Found"))
              12 Examples.clock "started" Examples.single
              (Examples.constant (1 # 2)) (Examples.constant (1 # 2))
              Examples.a1 Examples.a1 Examples.logData 404 "Not Found"
              eq_refl eq_refl eq_refl eq_refl ltac:(lia))
    as (_ & _ & (a' & Hget & Hcf & _) & _).
  exists a'. split; [exact Hget | exact Hcf].
Defined.

(** C1, the claim as stated fails: one message answered 404 takes the
    analyzer's [consecutiveFailures] from 0 to 2, and a second one leaves
    the analyzer unhealthy. *)
Lemma rejected_messages_degrade_health :
  let stored (d : WeightedDistributor.t) :=
    JsMap.get "a1" (WeightedDistributor.analyzers d) in
  let d1 := Examples.dispatch (Responded 404 "Not Found") Examples.single in
  let d2 := Examples.dispatch (Responded 404 "Not Found") d1 in
  option_map Analyzer.consecutiveFailures (stored Examples.single) = Some 0
  /\ option_map Analyzer.healthy (stored Examples.single) = Some true
  /\ option_map Analyzer.consecutiveFailures (stored d1) = Some 2
  /\ option_map Analyzer.healthy (stored d2) = Some false.
Proof. cbv zeta. repeat split; vm_compute; reflexivity. Qed.

(** C5, evaluated where the code departs from the claim.  A send that is
    answered 500, and likewise one that gets no answer, raises the
    analyzer's [totalChecks] and [consecutiveFailures] from 0 to 2 in a
    single dispatch, where a successful send raises [totalChecks] by 1. *)
Theorem failed_send_recorded_twice :
  let stored (d : WeightedDistributor.t) :=
    JsMap.get "a1" (WeightedDistributor.analyzers d) in
  let failed :=
    Examples.dispatch (Responded 500 "Internal Server Error")
                      Examples.single in
  let unreachable :=
    Examples.dispatch (Failed "connect ECONNREFUSED") Examples.single in
  let delivered := Examples.dispatch (Responded 200 "OK") Examples.single in
  option_map Analyzer.totalChecks (stored Examples.single) = Some 0
  /\ option_map Analyzer.totalChecks (stored failed) = Some 2
  /\ option_map Analyzer.consecutiveFailures (stored failed) = Some 2
  /\ option_map Analyzer.totalChecks (stored unreachable) = Some 2
  /\ option_map Analyzer.consecutiveFailures (stored unreachable) = Some 2
  /\ option_map Analyzer.totalChecks (stored delivered) = Some 1.
Proof. cbv zeta. repeat split; vm_compute; reflexivity. Qed.

(** ** Health thresholds *)

Section ThresholdFacts.
Import Analyzer.

Lemma streaks_ok_new now id endpoint weight :
  streaks_ok (new now id endpoint weight).
Proof. unfold streaks_ok; simpl. repeat split; intros; lia. Qed.

Lemma streaks_ok_record a o : streaks_ok a -> streaks_ok (record a o).
Proof.
  unfold streaks_ok, record, updateHealth.
  intros (Hf & Hs & Hh & Hu).
  destruct (o_success o); simpl.
  - destruct (3 <=? consecutiveSuccesses a + 1) eqn:E.
    + repeat split; intros; try lia; discriminate.
    + apply Z.leb_gt in E. repeat split; intros; lia.
  - destruct (3 <=? consecutiveFailures a + 1) eqn:E.
    + repeat split; intros; try lia; discriminate.
    + apply Z.leb_gt in E. repeat split; intros; lia.
Qed.

Lemma streaks_ok_run now id endpoint weight os :
  streaks_ok (run (new now id endpoint weight) os).
Proof.
  apply run_invariant.
  - apply streaks_ok_new.
  - intros b o. apply streaks_ok_record.
Qed.

(** With the literal threshold of [updateHealth], the flag of a record
    reached from a fresh one changes only at the outcome that brings the
    matching streak counter to exactly 3. *)
Lemma literal_threshold_transitions now id endpoint weight os o :
  let before := run (new now id endpoint weight) os in
  let after := record before o in
  (healthy before = true -> healthy after = false ->
   o_success o = false /\ consecutiveFailures after = 3)
  /\ (healthy before = false -> healthy after = true ->
      o_success o = true /\ consecutiveSuccesses after = 3).
Proof.
  intros before after.
  pose proof (streaks_ok_run now id endpoint weight os) as Hok.
  fold before in Hok. destruct Hok as (Hf & Hs & Hh & Hu).
  subst after. unfold record, updateHealth.
  destruct (o_success o); simpl; split; intros Hb Ha.
  - destruct (3 <=? consecutiveSuccesses before + 1); congruence.
  - destruct (3 <=? consecutiveSuccesses before + 1) eqn:E;
      [|congruence].
    apply Z.leb_le in E. specialize (Hu Hb). split; [reflexivity | lia].
  - destruct (3 <=? consecutiveFailures before + 1) eqn:E;
      [|congruence].
    apply Z.leb_le in E. specialize (Hh Hb). split; [reflexivity | lia].
  - destruct (3 <=? consecutiveFailures before + 1); congruence.
Qed.
End ThresholdFacts.

(** C3, evaluated where the code departs from the claim.  With a health
    checker configured for a failure threshold and a success threshold of
    5, a healthy analyzer is still healthy after two failed probes and
    turns unhealthy at the third, with [consecutiveFailures] at 3; three
    successful probes then turn it healthy again, with
    [consecutiveSuccesses] at 3.  The configured value 5 is never
    reached. *)
Theorem configured_thresholds_not_consulted :
  let stored (d : WeightedDistributor.t) :=
    JsMap.get "a1" (WeightedDistributor.analyzers d) in
  let down := Failed "connect ECONNREFUSED" in
  let up := Responded 200 "OK" in
  let two := Examples.probe down (Examples.probe down Examples.single) in
  let three := Examples.probe down two in
  let recovered :=
    Examples.probe up (Examples.probe up (Examples.probe up three)) in
  HealthChecker.failureThreshold Examples.checker5 = 5
  /\ HealthChecker.successThreshold Examples.checker5 = 5
  /\ option_map Analyzer.healthy (stored two) = Some true
  /\ option_map Analyzer.healthy (stored three) = Some false
  /\ option_map Analyzer.consecutiveFailures (stored three) = Some 3
  /\ option_map Analyzer.healthy (stored recovered) = Some true
  /\ option_map Analyzer.consecutiveSuccesses (stored recovered) = Some 3.
Proof. cbv zeta. repeat split; vm_compute; reflexivity. Qed.

(** ** Backpressure *)

Section BackpressureFacts.
Import WeightedDistributor.

Lemma distributePacket_full showNumber nowMs logPacket d g :
  maxQueueSize d <= Z.of_nat (List.length (packetQueue d)) ->
  distributePacket showNumber nowMs logPacket d g
  = (incr_packetsDropped (incr_packetsReceived d), g,
     Throw "Queue full - applying backpressure").
Proof.
  intros Hfull. unfold distributePacket.
  change (maxQueueSize (incr_packetsReceived d)) with (maxQueueSize d).
  change (packetQueue (incr_packetsReceived d)) with (packetQueue d).
  apply Z.leb_le in Hfull. rewrite Hfull. reflexivity.
Qed.
End BackpressureFacts.

(** C2.  Whenever the packet queue already holds [maxQueueSize] packets,
    the next packet submitted is rejected: [distributePacket] throws the
    queue-full error, [POST /logs] answers 429, [packetsDropped] grows by
    exactly one, and the queue, hence [queueSize], is unchanged. *)
Theorem full_queue_rejects_submission :
  forall (uuid : nat -> string) (JSON_stringify : LogMessage.json -> string)
         (showNumber : Q -> string) (now : string) (nowMs : Z)
         (body : Server.LogsBody) (srv : Server.t) (g : Rng) (n n' : nat)
         (packet : LogPacket.t),
    Server.parseLogPacket uuid now body n = (Ok packet, n') ->
    LogPacket.isValid packet = true ->
    Z.of_nat (List.length
                (WeightedDistributor.packetQueue (Server.distributor srv)))
    = WeightedDistributor.maxQueueSize (Server.distributor srv) ->
    let d := Server.distributor srv in
    let out :=
      Server.postLogs uuid JSON_stringify showNumber now nowMs body srv g n
    in
    let d' := Server.distributor (fst (fst (fst out))) in
    Server.statusCode (snd (fst out)) = 429
    /\ WeightedDistributor.packetsDropped (WeightedDistributor.stats d')
       = WeightedDistributor.packetsDropped (WeightedDistributor.stats d) + 1
    /\ WeightedDistributor.packetQueue d' = WeightedDistributor.packetQueue d
    /\ WeightedDistributor.queueSize (WeightedDistributor.getStats d')
       = WeightedDistributor.queueSize (WeightedDistributor.getStats d)
    /\ (forall logPacket,
          snd (WeightedDistributor.distributePacket
                 showNumber nowMs logPacket d g)
          = Throw "Queue full - applying backpressure").
Proof.
  intros uuid JSON_stringify showNumber now nowMs body srv g n n' packet
         Hparse Hvalid Hfull d out d'.
  assert (Hle : WeightedDistributor.maxQueueSize d
                <= Z.of_nat (List.length (WeightedDistributor.packetQueue d)))
    by (subst d; lia).
  assert (Hout : out
                 = (Server.with_distributor
                      (WeightedDistributor.incr_packetsDropped
                         (WeightedDistributor.incr_packetsReceived d)) srv,
                    g,
                    Server.logsError "Queue full - applying backpressure",
                    n')).
  { subst out. unfold Server.postLogs, bind. rewrite Hparse, Hvalid.
    cbv beta iota zeta. unfold negb.
    fold d. rewrite (distributePacket_full showNumber nowMs _ d g Hle).
    reflexivity. }
  subst d'. rewrite Hout. cbn [fst snd].
  split; [reflexivity|]. split; [reflexivity|].
  split; [reflexivity|]. split; [reflexivity|].
  intros logPacket.
  rewrite (distributePacket_full showNumber nowMs logPacket d g Hle).
  reflexivity.
Qed.

Lemma full_queue_rejects_submission_witness :
  LogPacket.isValid
    (match fst (Server.parseLogPacket
                  Examples.uuid Examples.clock
                  (Server.BArray [inl "started"]) 0%nat) with
     | Ok packet => packet
     | Throw _ => LogPacket.mk "" None "" []
     end) = true
  /\ Z.of_nat (List.length
                 (WeightedDistributor.packetQueue
                    (Server.distributor Examples.full)))
     = WeightedDistributor.maxQueueSize (Server.distributor Examples.full)
  /\ Server.statusCode
       (snd (fst (Server.postLogs
                    Examples.uuid Examples.stringify Examples.showNumber
                    Examples.clock 1000 (Server.BArray [inl "started"])
                    Examples.full (Examples.constant (1 # 2)) 0%nat)))
     = 429.
Proof.
  split; [reflexivity|]. split; [reflexivity|].
  apply (full_queue_rejects_submission
           Examples.uuid Examples.stringify Examples.showNumber
           Examples.clock 1000 (Server.BArray [inl "started"])
           Examples.full (Examples.constant (1 # 2)) 0%nat 2%nat
           (LogPacket.mk "uuid-1" (Some "unknown-agent") Examples.clock
              [LogMessage.mk "uuid-0" Examples.clock (Some "INFO")
                             (Some "unknown") (Some "started") (JObj [])]));
    reflexivity.
Defined.

(** * Further properties of the code *)

(** ** Health records over a run *)

Section RunFacts.
Import Analyzer.

Lemma run_cons a o os : run a (o :: os) = run (record a o) os.
Proof. reflexivity. Qed.

Lemma run_totals a os :
  totalChecks (run a os) = totalChecks a + Z.of_nat (List.length os)
  /\ totalFailures (run a os)
     = totalFailures a + Z.of_nat (List.length (failures os))
  /\ id (run a os) = id a
  /\ endpoint (run a os) = endpoint a
  /\ weight (run a os) = weight a.
Proof.
  revert a. induction os as [|o os IH]; intros a.
  - simpl. repeat split; lia.
  - rewrite run_cons. destruct (IH (record a o)) as (Hc & Hf & Hi & He & Hw).
    rewrite Hc, Hf, Hi, He, Hw. unfold record, updateHealth, failures.
    simpl List.length. simpl filter.
    destruct (o_success o); simpl; repeat split; lia.
Qed.
End RunFacts.

(** X1.  After any sequence of [updateHealth] calls on a fresh record,
    [totalChecks] is the number of calls and [totalFailures] the number of
    failed ones, and id, endpoint and weight are those given to the
    constructor. *)
Theorem lifetime_counters_count_outcomes :
  forall (now id endpoint : string) (weight : option Q)
         (os : list Analyzer.outcome),
    let fresh := Analyzer.new now id endpoint weight in
    let a := Analyzer.run fresh os in
    Analyzer.totalChecks a = Z.of_nat (List.length os)
    /\ Analyzer.totalFailures a = Z.of_nat (List.length (failures os))
    /\ Analyzer.id a = id
    /\ Analyzer.endpoint a = endpoint
    /\ Analyzer.weight a = Analyzer.weight fresh.
Proof.
  intros now id endpoint weight os fresh a.
  destruct (run_totals fresh os) as (Hc & Hf & Hi & He & Hw).
  subst a. rewrite Hc, Hf, Hi, He, Hw. repeat split.
Qed.

(** X2.  Whatever happened before, three failures in a row leave a record
    unhealthy and three successes in a row leave it healthy. *)
Theorem three_in_a_row_decide_health :
  forall (now id endpoint : string) (weight : option Q)
         (os : list Analyzer.outcome)
         (t1 t2 t3 : string) (r1 r2 r3 : Z),
    let fresh := Analyzer.new now id endpoint weight in
    let streak (success : bool) :=
      [Analyzer.mkOutcome success r1 t1; Analyzer.mkOutcome success r2 t2;
       Analyzer.mkOutcome success r3 t3] in
    Analyzer.healthy (Analyzer.run fresh (os ++ streak false)%list) = false
    /\ Analyzer.healthy (Analyzer.run fresh (os ++ streak true)%list) = true.
Proof.
  intros now id endpoint weight os t1 t2 t3 r1 r2 r3 fresh streak.
  pose proof (streaks_ok_run now id endpoint weight os) as Hok.
  fold fresh in Hok. destruct Hok as (Hf & Hs & _ & _).
  rewrite !run_app. subst streak. cbv beta.
  set (a := Analyzer.run fresh os) in *.
  unfold Analyzer.run; simpl.
  unfold Analyzer.record, Analyzer.updateHealth; simpl.
  split.
  - replace (3 <=? Analyzer.consecutiveFailures a + 1 + 1 + 1) with true
      by (symmetry; apply Z.leb_le; lia).
    reflexivity.
  - replace (3 <=? Analyzer.consecutiveSuccesses a + 1 + 1 + 1) with true
      by (symmetry; apply Z.leb_le; lia).
    reflexivity.
Qed.

(** ** The registry stays well formed *)

Section RegistryInvariant.
Context {V : Type}.
Implicit Types (m : JsMap.t V) (k : string) (v : V).

Lemma get_None_keys k m : JsMap.get k m = None <-> ~ In k (JsMap.keys m).
Proof.
  unfold JsMap.keys. induction m as [|[k' v'] m IH]; simpl.
  - split; [intros _ []| reflexivity].
  - destruct (k' =? k)%string eqn:E.
    + apply String.eqb_eq in E. split; [discriminate|].
      intros H. exfalso. apply H. left. exact E.
    + apply String.eqb_neq in E. rewrite IH. split.
      * intros H [Hk|Hin]; [congruence | exact (H Hin)].
      * intros H Hin. apply H. right. exact Hin.
Qed.

Lemma get_Some_In k v m : JsMap.get k m = Some v -> In (k, v) m.
Proof.
  induction m as [|[k' v'] m IH]; simpl; [discriminate|].
  destruct (k' =? k)%string eqn:E.
  - apply String.eqb_eq in E. intros [= <-]. left. congruence.
  - intros H. right. apply IH. exact H.
Qed.

Lemma In_get k v m :
  NoDup (JsMap.keys m) -> In (k, v) m -> JsMap.get k m = Some v.
Proof.
  unfold JsMap.keys. induction m as [|[k' v'] m IH]; simpl; [intros _ []|].
  intros Hnd [Heq|Hin].
  - injection Heq as -> ->. rewrite String.eqb_refl. reflexivity.
  - inversion Hnd as [|? ? Hnotin Hnd']; subst.
    destruct (k' =? k)%string eqn:E.
    + apply String.eqb_eq in E. subst k'. exfalso. apply Hnotin.
      apply (in_map fst) in Hin. exact Hin.
    + apply IH; assumption.
Qed.

Lemma keys_set k v m :
  JsMap.keys (JsMap.set k v m)
  = match JsMap.get k m with
    | Some _ => JsMap.keys m
    | None => (JsMap.keys m ++ [k])%list
    end.
Proof.
  destruct (JsMap.get k m) eqn:E.
  - apply set_present_keys. congruence.
  - rewrite (set_absent k v m E). unfold JsMap.keys. rewrite map_app.
    reflexivity.
Qed.

Lemma NoDup_keys_set k v m :
  NoDup (JsMap.keys m) -> NoDup (JsMap.keys (JsMap.set k v m)).
Proof.
  intros Hnd. rewrite keys_set. destruct (JsMap.get k m) eqn:E.
  - exact Hnd.
  - apply get_None_keys in E.
    apply NoDup_rev in Hnd. rewrite <- (rev_involutive (_ ++ [k])%list).
    apply NoDup_rev. rewrite rev_app_distr. simpl.
    constructor; [|exact Hnd].
    intros Hin. apply E. apply in_rev. exact Hin.
Qed.

Lemma In_set k v m entry :
  In entry (JsMap.set k v m) -> entry = (k, v) \/ In entry m.
Proof.
  induction m as [|[k' v'] m IH]; simpl.
  - intros [H|[]]. left. symmetry. exact H.
  - destruct (k' =? k)%string; simpl.
    + intros [H|H]; [left; symmetry; exact H | right; right; exact H].
    + intros [H|H]; [right; left; exact H|].
      destruct (IH H) as [Heq|Hin]; [left; exact Heq | right; right; exact Hin].
Qed.

Lemma NoDup_keys_delete k m :
  NoDup (JsMap.keys m) -> NoDup (JsMap.keys (JsMap.delete k m)).
Proof.
  unfold JsMap.keys, JsMap.delete.
  induction m as [|[k' v'] m IH]; simpl; intros Hnd; [constructor|].
  inversion Hnd as [|? ? Hnotin Hnd']; subst.
  destruct (negb (k' =? k)%string); simpl.
  - constructor; [|apply IH; exact Hnd'].
    intros Hin. apply Hnotin. apply in_map_iff in Hin.
    destruct Hin as (e & He & Hin). apply filter_In in Hin.
    apply in_map_iff. exists e. split; [exact He | apply Hin].
  - apply IH. exact Hnd'.
Qed.
End RegistryInvariant.

Section RegistryOk.
Import WeightedDistributor.

Lemma registry_ok_empty : registry_ok [].
Proof. split; constructor. Qed.

Lemma registry_ok_set a m :
  registry_ok m -> registry_ok (JsMap.set (Analyzer.id a) a m).
Proof.
  intros [Hnd Hid]. split.
  - apply NoDup_keys_set. exact Hnd.
  - apply Forall_forall. intros entry Hin.
    destruct (In_set _ _ _ _ Hin) as [->|Hold]; [reflexivity|].
    rewrite Forall_forall in Hid. apply Hid. exact Hold.
Qed.

Lemma registry_ok_delete k m :
  registry_ok m -> registry_ok (JsMap.delete k m).
Proof.
  intros [Hnd Hid]. split.
  - apply NoDup_keys_delete. exact Hnd.
  - apply Forall_forall. intros entry Hin.
    unfold JsMap.delete in Hin. apply filter_In in Hin.
    rewrite Forall_forall in Hid. apply Hid. apply Hin.
Qed.

Lemma registry_ok_stored k a m :
  registry_ok m -> JsMap.get k m = Some a -> Analyzer.id a = k.
Proof.
  intros [_ Hid] Hget. rewrite Forall_forall in Hid.
  apply (Hid (k, a)). apply get_Some_In. exact Hget.
Qed.

Lemma registry_ok_addAnalyzer a d :
  registry_ok (analyzers d) -> registry_ok (analyzers (addAnalyzer a d)).
Proof. intros H. simpl. apply registry_ok_set. exact H. Qed.

Lemma registry_ok_removeAnalyzer k d :
  registry_ok (analyzers d) -> registry_ok (analyzers (removeAnalyzer k d)).
Proof.
  intros H. unfold removeAnalyzer.
  destruct (JsMap.get k (analyzers d)); simpl; [|exact H].
  apply registry_ok_delete. exact H.
Qed.

Lemma registry_ok_updateAnalyzerHealth now k success rt d :
  registry_ok (analyzers d) ->
  registry_ok (analyzers (updateAnalyzerHealth now k success rt d)).
Proof.
  intros H. unfold updateAnalyzerHealth.
  destruct (JsMap.get k (analyzers d)) as [a|] eqn:E; simpl; [|exact H].
  pose proof (registry_ok_stored k a _ H E) as Hk.
  replace k with (Analyzer.id (Analyzer.updateHealth now success rt a))
    at 1 by (destruct success; exact Hk).
  apply registry_ok_set. exact H.
Qed.

Lemma analyzers_incr_errors d : analyzers (incr_errors d) = analyzers d.
Proof. reflexivity. Qed.

Lemma analyzers_emit e d : analyzers (emit e d) = analyzers d.
Proof. reflexivity. Qed.

Lemma registry_ok_distribute JSON_parse net elapsed now message d g :
  registry_ok (analyzers d) ->
  registry_ok
    (analyzers
       (fst (fst (distribute JSON_parse net elapsed now message d g)))).
Proof.
  intros H. unfold distribute.
  destruct (selectAnalyzer d g) as [[a|] g']; [|exact H].
  unfold sendToAnalyzer.
  destruct (attempt JSON_parse net a message); cbn [fst snd].
  - rewrite analyzers_emit. apply registry_ok_updateAnalyzerHealth. exact H.
  - apply registry_ok_updateAnalyzerHealth. rewrite analyzers_incr_errors.
    rewrite analyzers_emit. apply registry_ok_updateAnalyzerHealth. exact H.
Qed.

Lemma analyzers_distributePacket showNumber nowMs logPacket d g :
  analyzers (fst (fst (distributePacket showNumber nowMs logPacket d g)))
  = analyzers d.
Proof.
  unfold distributePacket.
  destruct (maxQueueSize (incr_packetsReceived d)
            <=? Z.of_nat (List.length (packetQueue (incr_packetsReceived d))));
    reflexivity.
Qed.

Lemma registry_ok_checkAnalyzerHealth hc reply elapsed now k endpoint d :
  registry_ok (analyzers d) ->
  registry_ok
    (analyzers
       (HealthChecker.checkAnalyzerHealth hc reply elapsed now k endpoint d)).
Proof.
  intros H. unfold HealthChecker.checkAnalyzerHealth.
  destruct (HealthChecker.performHealthCheck reply endpoint);
    apply registry_ok_updateAnalyzerHealth; exact H.
Qed.
End RegistryOk.

(** ** What the selector can return *)

Section SelectionFacts.
Import WeightedDistributor.

Lemma walk_In r l : forall c a, walk r c l = Some a -> In a l.
Proof.
  induction l as [|b rest IH]; intros c a H; simpl in H; [discriminate|].
  destruct (Qle_bool r (c + Analyzer.weight b)).
  - injection H as <-. left. reflexivity.
  - right. apply (IH _ _ H).
Qed.

Lemma last_Some_In (l : list Analyzer.t) a :
  List.last (map Some l) None = Some a -> In a l.
Proof.
  destruct l as [|b rest]; [discriminate|].
  destruct (last_of_nonempty (b :: rest)) as (front & x & Hl & Hlast);
    [discriminate|].
  rewrite Hlast. intros [= <-]. rewrite Hl. apply in_or_app.
  right. left. reflexivity.
Qed.

Lemma selectAnalyzer_In d g a g' :
  selectAnalyzer d g = (Some a, g') -> In a (getHealthyAnalyzers d).
Proof.
  unfold selectAnalyzer.
  destruct (getHealthyAnalyzers d) as [|a1 [|a2 rest]] eqn:EH.
  - discriminate.
  - intros [= <- _]. left. reflexivity.
  - destruct (Qeq_bool (getTotalWeight d) 0); [discriminate|].
    cbv zeta. unfold Math_random at 1.
    destruct (walk _ 0 (a1 :: a2 :: rest)) as [chosen|] eqn:Hwalk.
    + intros [= <- _]. apply (walk_In _ _ _ _ Hwalk).
    + intros [= Hlast _]. apply last_Some_In. exact Hlast.
Qed.

Lemma selectAnalyzer_stored d g a g' :
  registry_ok (analyzers d) ->
  selectAnalyzer d g = (Some a, g') ->
  Analyzer.healthy a = true
  /\ JsMap.get (Analyzer.id a) (analyzers d) = Some a.
Proof.
  intros Hok Hsel. apply selectAnalyzer_In in Hsel.
  unfold getHealthyAnalyzers in Hsel. apply filter_In in Hsel.
  destruct Hsel as [Hin Hh]. split; [exact Hh|].
  unfold JsMap.values in Hin. apply in_map_iff in Hin.
  destruct Hin as ([k v] & Hv & Hin). simpl in Hv. subst v.
  destruct Hok as [Hnd Hid]. rewrite Forall_forall in Hid.
  pose proof (Hid _ Hin) as Hk. simpl in Hk. rewrite Hk.
  apply In_get; assumption.
Qed.
End SelectionFacts.

(** X3.  On a well-formed registry the selector only ever returns an
    analyzer that is healthy and is the record currently stored under its
    id. *)
Theorem selected_is_healthy_and_registered :
  forall (d : WeightedDistributor.t) (g g' : Rng) (a : Analyzer.t),
    registry_ok (WeightedDistributor.analyzers d) ->
    WeightedDistributor.selectAnalyzer d g = (Some a, g') ->
    Analyzer.healthy a = true
    /\ JsMap.get (Analyzer.id a) (WeightedDistributor.analyzers d) = Some a.
Proof.
  intros d g g' a Hok Hsel. exact (selectAnalyzer_stored d g a g' Hok Hsel).
Qed.

Lemma registry_ok_a_then_b :
  registry_ok (WeightedDistributor.analyzers Examples.a_then_b).
Proof.
  unfold Examples.a_then_b.
  apply registry_ok_addAnalyzer. apply registry_ok_addAnalyzer.
  apply registry_ok_empty.
Defined.

Lemma selected_is_healthy_and_registered_witness :
  WeightedDistributor.selectAnalyzer
    Examples.a_then_b (Examples.constant (1 # 4))
  = (Some Examples.analyzerA, advance (Examples.constant (1 # 4)))
  /\ Analyzer.healthy Examples.analyzerA = true
  /\ JsMap.get "a" (WeightedDistributor.analyzers Examples.a_then_b)
     = Some Examples.analyzerA.
Proof.
  split; [reflexivity|].
  apply (selected_is_healthy_and_registered
           Examples.a_then_b (Examples.constant (1 # 4))
           (advance (Examples.constant (1 # 4))) Examples.analyzerA).
  - exact registry_ok_a_then_b.
  - reflexivity.
Defined.




(** X6.  Once an analyzer has been removed from a well-formed registry
    the selector cannot return an analyzer of that id. *)
Theorem removed_analyzer_not_selected :
  forall (d : WeightedDistributor.t) (analyzerId : string) (g g' : Rng)
         (a : Analyzer.t),
    registry_ok (WeightedDistributor.analyzers d) ->
    WeightedDistributor.selectAnalyzer
      (WeightedDistributor.removeAnalyzer analyzerId d) g = (Some a, g') ->
    Analyzer.id a <> analyzerId.
Proof.
  intros d analyzerId g g' a Hok Hsel Heq.
  apply (registry_ok_removeAnalyzer analyzerId) in Hok.
  destruct (selectAnalyzer_stored _ _ _ _ Hok Hsel) as [_ Hget].
  rewrite Heq, removeAnalyzer_removes in Hget. discriminate.
Qed.

Lemma removed_analyzer_not_selected_witness :
  WeightedDistributor.selectAnalyzer
    (WeightedDistributor.removeAnalyzer "a" Examples.a_then_b)
    (Examples.constant (1 # 4))
  = (Some Examples.analyzerB, Examples.constant (1 # 4))
  /\ Analyzer.id Examples.analyzerB <> "a".
Proof.
  split; [reflexivity|].
  apply (removed_analyzer_not_selected
           Examples.a_then_b "a" (Examples.constant (1 # 4))
           (Examples.constant (1 # 4)) Examples.analyzerB).
  - exact registry_ok_a_then_b.
  - reflexivity.
Defined.

(** ** Recording outcomes *)

Section OutcomeFacts.
Import WeightedDistributor.

Lemma updateAnalyzerHealth_absent now k success rt d :
  JsMap.get k (analyzers d) = None ->
  updateAnalyzerHealth now k success rt d = d.
Proof. intros H. unfold updateAnalyzerHealth. rewrite H. reflexivity. Qed.

Lemma updateAnalyzerHealth_frame now k success rt d :
  JsMap.keys (analyzers (updateAnalyzerHealth now k success rt d))
  = JsMap.keys (analyzers d)
  /\ (forall k', k <> k' ->
        JsMap.get k' (analyzers (updateAnalyzerHealth now k success rt d))
        = JsMap.get k' (analyzers d))
  /\ stats (updateAnalyzerHealth now k success rt d) = stats d
  /\ packetQueue (updateAnalyzerHealth now k success rt d) = packetQueue d.
Proof.
  unfold updateAnalyzerHealth.
  destruct (JsMap.get k (analyzers d)) as [a|] eqn:E; simpl.
  - split; [apply set_present_keys; congruence|].
    split; [intros k' Hne; apply get_set_other; exact Hne|].
    split; reflexivity.
  - repeat split; reflexivity.
Qed.

Lemma checkAnalyzerHealth_is2xx hc reply elapsed now k endpoint d :
  HealthChecker.checkAnalyzerHealth hc reply elapsed now k endpoint d
  = updateAnalyzerHealth now k (is2xx reply) elapsed d.
Proof.
  unfold HealthChecker.checkAnalyzerHealth, HealthChecker.performHealthCheck,
    axios_request, HealthChecker.validateStatus, is2xx.
  destruct reply as [st txt|reason]; [|reflexivity].
  destruct ((200 <=? st) && (st <? 300)) eqn:E; simpl.
  - rewrite E. reflexivity.
  - reflexivity.
Qed.
End OutcomeFacts.

(** X7.  Recording an outcome for one analyzer touches nothing else: the
    ids of the registry and their order, the record of every other id, the
    aggregate counters and the packet queue are unchanged. *)
Theorem outcome_touches_one_record :
  forall (now analyzerId : string) (success : bool) (responseTime : Z)
         (d : WeightedDistributor.t),
    let d' :=
      WeightedDistributor.updateAnalyzerHealth now analyzerId success
                                               responseTime d in
    JsMap.keys (WeightedDistributor.analyzers d')
    = JsMap.keys (WeightedDistributor.analyzers d)
    /\ (forall k, analyzerId <> k ->
          JsMap.get k (WeightedDistributor.analyzers d')
          = JsMap.get k (WeightedDistributor.analyzers d))
    /\ WeightedDistributor.stats d' = WeightedDistributor.stats d
    /\ WeightedDistributor.packetQueue d' = WeightedDistributor.packetQueue d.
Proof. intros. apply updateAnalyzerHealth_frame. Qed.

(** X8.  An outcome that arrives for an id that is no longer registered is
    dropped: recording it, a probe of it, and the completion of a send to
    it leave the registry and the counters of the distributor as they
    were. *)
Theorem outcome_for_unregistered_id_dropped :
  forall (JSON_parse : string -> Result LogMessage.json)
         (net : string -> LogMessage.json -> HttpReply)
         (hc : HealthChecker.t) (reply : HttpReply)
         (now message : string) (success : bool) (elapsed : Z)
         (analyzer : Analyzer.t) (d : WeightedDistributor.t),
    JsMap.get (Analyzer.id analyzer) (WeightedDistributor.analyzers d)
    = None ->
    WeightedDistributor.updateAnalyzerHealth
      now (Analyzer.id analyzer) success elapsed d = d
    /\ HealthChecker.checkAnalyzerHealth
         hc reply elapsed now (Analyzer.id analyzer)
         (Analyzer.endpoint analyzer) d = d
    /\ (let sent :=
          fst (WeightedDistributor.sendToAnalyzer
                 JSON_parse net elapsed now analyzer message d) in
        WeightedDistributor.analyzers sent = WeightedDistributor.analyzers d
        /\ WeightedDistributor.stats sent = WeightedDistributor.stats d).
Proof.
  intros JSON_parse net hc reply now message success elapsed analyzer d Hget.
  split; [apply updateAnalyzerHealth_absent; exact Hget|].
  split.
  - rewrite checkAnalyzerHealth_is2xx.
    apply updateAnalyzerHealth_absent; exact Hget.
  - cbv zeta. unfold WeightedDistributor.sendToAnalyzer.
    destruct (WeightedDistributor.attempt JSON_parse net analyzer message);
      cbn [fst]; rewrite updateAnalyzerHealth_absent by exact Hget;
      split; reflexivity.
Qed.

Lemma outcome_for_unregistered_id_dropped_witness :
  JsMap.get (Analyzer.id Examples.analyzerA)
            (WeightedDistributor.analyzers Examples.single) = None
  /\ HealthChecker.checkAnalyzerHealth
       Examples.checker5 (Failed "timeout") 9 Examples.clock
       (Analyzer.id Examples.analyzerA)
       (Analyzer.endpoint Examples.analyzerA) Examples.single
     = Examples.single.
Proof.
  split; [reflexivity|].
  apply (outcome_for_unregistered_id_dropped
           Examples.parse (Examples.answering (Failed "timeout"))
           Examples.checker5 (Failed "timeout") Examples.clock "started"
           false 9 Examples.analyzerA Examples.single).
  reflexivity.
Defined.

(** X9.  A probe counts as a success exactly when the health endpoint
    answers with a 2xx status; every other status and every connection
    failure is recorded as a failure.  Either way the probe is recorded
    once: the record stored under the id becomes the result of one
    [updateHealth] call. *)
Theorem probe_recorded_once_by_status :
  forall (hc : HealthChecker.t) (reply : HttpReply) (elapsed : Z)
         (now analyzerId endpoint : string) (d : WeightedDistributor.t)
         (stored : Analyzer.t),
    JsMap.get analyzerId (WeightedDistributor.analyzers d) = Some stored ->
    let d' :=
      HealthChecker.checkAnalyzerHealth hc reply elapsed now analyzerId
                                        endpoint d in
    let success :=
      match reply with
      | Responded st _ => (200 <=? st) && (st <? 300)
      | Failed _ => false
      end in
    JsMap.get analyzerId (WeightedDistributor.analyzers d')
    = Some (Analyzer.updateHealth now success elapsed stored)
    /\ (exists a',
          JsMap.get analyzerId (WeightedDistributor.analyzers d') = Some a'
          /\ Analyzer.totalChecks a' = Analyzer.totalChecks stored + 1
          /\ Analyzer.totalFailures a'
             = Analyzer.totalFailures stored + (if success then 0 else 1)).
Proof.
  intros hc reply elapsed now analyzerId endpoint d stored Hget d' success.
  assert (Hd : JsMap.get analyzerId (WeightedDistributor.analyzers d')
               = Some (Analyzer.updateHealth now success elapsed stored)).
  { subst d'. rewrite checkAnalyzerHealth_is2xx.
    rewrite (updateAnalyzerHealth_eq now analyzerId _ elapsed d stored Hget).
    simpl. apply get_set_same. }
  split; [exact Hd|].
  eexists. split; [exact Hd|].
  destruct success; simpl; split; lia.
Qed.

Lemma probe_recorded_once_by_status_witness :
  JsMap.get "a1" (WeightedDistributor.analyzers Examples.single)
  = Some Examples.a1
  /\ JsMap.get "a1"
       (WeightedDistributor.analyzers
          (Examples.probe (Responded 404 "Not Found") Examples.single))
     = Some (Analyzer.updateHealth Examples.clock false 7 Examples.a1).
Proof.
  split; [reflexivity|].
  apply (probe_recorded_once_by_status
           Examples.checker5 (Responded 404 "Not Found") 7 Examples.clock
           "a1" "http://localhost:8081" Examples.single Examples.a1).
  reflexivity.
Defined.

(** ** A round of probes *)

Section ProbeRound.
Variable hc : HealthChecker.t.
Variable replyOf : string -> HttpReply.
Variable elapsedOf : string -> Z.
Variable nowOf : string -> string.

Let probed1 := probed replyOf elapsedOf nowOf.

Lemma set_set_commute {V : Type} (i j : string) (v u : V)
      (m : JsMap.t V) :
  i <> j -> JsMap.get i m <> None -> JsMap.get j m <> None ->
  JsMap.set i v (JsMap.set j u m) = JsMap.set j u (JsMap.set i v m).
Proof.
  intros Hne. induction m as [|[k w] m IH]; intros Hi Hj.
  - simpl in Hi. congruence.
  - assert (Hij : (i =? j)%string = false) by (apply String.eqb_neq; exact Hne).
    assert (Hji : (j =? i)%string = false)
      by (apply String.eqb_neq; congruence).
    destruct (String.eqb_spec k j) as [Hkj|Hkj];
      destruct (String.eqb_spec k i) as [Hki|Hki].
    + congruence.
    + subst j. simpl. rewrite String.eqb_refl. simpl. rewrite Hji. simpl.
      rewrite String.eqb_refl. reflexivity.
    + subst i. simpl. rewrite String.eqb_refl. simpl. rewrite Hij. simpl.
      rewrite String.eqb_refl. reflexivity.
    + apply String.eqb_neq in Hkj, Hki. simpl in *.
      rewrite Hkj, Hki in *. simpl. rewrite Hkj, Hki.
      f_equal. apply IH; assumption.
Qed.

Lemma probed_commute m x y :
  Analyzer.s_id x <> Analyzer.s_id y ->
  probed1 (probed1 m x) y = probed1 (probed1 m y) x.
Proof.
  intros Hne. unfold probed1, probed. cbv zeta.
  destruct (JsMap.get (Analyzer.s_id x) m) as [sx|] eqn:Ex;
    destruct (JsMap.get (Analyzer.s_id y) m) as [sy|] eqn:Ey.
  - rewrite (get_set_other _ _ _ _ Hne), Ey.
    rewrite (get_set_other (Analyzer.s_id y) (Analyzer.s_id x)), Ex
      by congruence.
    symmetry. apply set_set_commute; congruence.
  - rewrite (get_set_other _ _ _ _ Hne), Ey, Ex. reflexivity.
  - rewrite (get_set_other (Analyzer.s_id y) (Analyzer.s_id x)), Ex
      by congruence.
    reflexivity.
  - rewrite ?Ey, ?Ex. reflexivity.
Qed.

Lemma fold_probed_permutation l l' :
  Permutation l l' ->
  NoDup (map Analyzer.s_id l) ->
  forall m, fold_left probed1 l m = fold_left probed1 l' m.
Proof.
  induction 1 as [|x l l' Hperm IH|x y l|l l' l'' H1 IH1 H2 IH2];
    intros Hnd m; simpl.
  - reflexivity.
  - inversion Hnd; subst. apply IH. assumption.
  - inversion Hnd as [|? ? Hnotin Hnd']; subst.
    rewrite probed_commute; [reflexivity|].
    intros Heq. apply Hnotin. left. congruence.
  - rewrite IH1 by exact Hnd. apply IH2.
    apply (Permutation_NoDup (Permutation_map Analyzer.s_id H1) Hnd).
Qed.

Lemma analyzers_settleProbes settled d :
  WeightedDistributor.analyzers
    (HealthChecker.settleProbes hc replyOf elapsedOf nowOf settled d)
  = fold_left probed1 settled (WeightedDistributor.analyzers d).
Proof.
  unfold HealthChecker.settleProbes.
  revert d. induction settled as [|a rest IH]; intros d; simpl.
  - reflexivity.
  - rewrite IH. f_equal. rewrite checkAnalyzerHealth_is2xx.
    unfold probed1, probed, WeightedDistributor.updateAnalyzerHealth.
    destruct (JsMap.get (Analyzer.s_id a) (WeightedDistributor.analyzers d));
      reflexivity.
Qed.

Lemma snapshot_ids d :
  registry_ok (WeightedDistributor.analyzers d) ->
  map Analyzer.s_id (WeightedDistributor.getAnalyzersStatus d)
  = JsMap.keys (WeightedDistributor.analyzers d).
Proof.
  intros [_ Hid]. unfold WeightedDistributor.getAnalyzersStatus,
                    JsMap.values, JsMap.keys.
  rewrite !map_map. apply map_ext_in. intros entry Hin.
  rewrite Forall_forall in Hid. simpl. apply Hid. exact Hin.
Qed.

Lemma fold_probed_get l : forall m k,
  NoDup (map Analyzer.s_id l) ->
  JsMap.get k (fold_left probed1 l m)
  = if in_dec string_dec k (map Analyzer.s_id l)
    then option_map
           (Analyzer.updateHealth (nowOf k) (is2xx (replyOf k))
                                  (elapsedOf k))
           (JsMap.get k m)
    else JsMap.get k m.
Proof.
  induction l as [|a rest IH]; intros m k Hnd; simpl fold_left.
  - reflexivity.
  - inversion Hnd as [|? ? Hnotin Hnd']; subst.
    rewrite (IH _ _ Hnd'). simpl map.
    destruct (in_dec string_dec k (Analyzer.s_id a :: map Analyzer.s_id rest))
      as [Hin|Hout];
      destruct (in_dec string_dec k (map Analyzer.s_id rest)) as [Hr|Hr].
    + assert (Hne : Analyzer.s_id a <> k)
        by (intros Heq; subst k; contradiction).
      unfold probed1, probed.
      destruct (JsMap.get (Analyzer.s_id a) m); cbv zeta;
        [rewrite (get_set_other _ _ _ _ Hne)|]; reflexivity.
    + destruct Hin as [Heq|Hin]; [subst k | contradiction].
      unfold probed1, probed.
      destruct (JsMap.get (Analyzer.s_id a) m) eqn:E; cbv zeta.
      * rewrite get_set_same. reflexivity.
      * rewrite E. reflexivity.
    + exfalso. apply Hout. right. exact Hr.
    + assert (Hne : Analyzer.s_id a <> k).
      { intros Heq. apply Hout. left. exact Heq. }
      unfold probed1, probed.
      destruct (JsMap.get (Analyzer.s_id a) m); cbv zeta;
        [rewrite (get_set_other _ _ _ _ Hne)|]; reflexivity.
Qed.
End ProbeRound.

(** X10.  The registry left by a round of health checks does not depend
    on the order in which the probes are answered: settling the probes of
    the snapshot in any order gives the same records, in the same
    order. *)
Theorem probe_round_order_irrelevant :
  forall (hc : HealthChecker.t) (replyOf : string -> HttpReply)
         (elapsedOf : string -> Z) (nowOf : string -> string)
         (d : WeightedDistributor.t) (settled : list Analyzer.status),
    registry_ok (WeightedDistributor.analyzers d) ->
    Permutation (WeightedDistributor.getAnalyzersStatus d) settled ->
    WeightedDistributor.analyzers
      (HealthChecker.settleProbes hc replyOf elapsedOf nowOf settled d)
    = WeightedDistributor.analyzers
        (HealthChecker.checkAllAnalyzers hc replyOf elapsedOf nowOf d).
Proof.
  intros hc replyOf elapsedOf nowOf d settled Hok Hperm.
  unfold HealthChecker.checkAllAnalyzers.
  rewrite !analyzers_settleProbes. symmetry.
  apply fold_probed_permutation; [exact Hperm|].
  rewrite (snapshot_ids d Hok). apply Hok.
Qed.

Lemma probe_round_order_irrelevant_witness :
  registry_ok (WeightedDistributor.analyzers Examples.a_then_b)
  /\ WeightedDistributor.analyzers
       (HealthChecker.settleProbes
          Examples.checker5 Scenarios.replies (fun _ => 5)
          (fun _ => Examples.clock)
          (rev (WeightedDistributor.getAnalyzersStatus Examples.a_then_b))
          Examples.a_then_b)
     = WeightedDistributor.analyzers
         (HealthChecker.checkAllAnalyzers
            Examples.checker5 Scenarios.replies (fun _ => 5)
            (fun _ => Examples.clock) Examples.a_then_b).
Proof.
  split; [exact registry_ok_a_then_b|].
  apply (probe_round_order_irrelevant
           Examples.checker5 Scenarios.replies (fun _ => 5)
           (fun _ => Examples.clock) Examples.a_then_b).
  - exact registry_ok_a_then_b.
  - apply Permutation_rev.
Defined.

(** X11.  A round of health checks on a well-formed registry records
    exactly one outcome on every registered analyzer, the one of its own
    probe, and registers or removes nothing. *)
Theorem probe_round_records_each_once :
  forall (hc : HealthChecker.t) (replyOf : string -> HttpReply)
         (elapsedOf : string -> Z) (nowOf : string -> string)
         (d : WeightedDistributor.t),
    registry_ok (WeightedDistributor.analyzers d) ->
    forall k : string,
      JsMap.get k
        (WeightedDistributor.analyzers
           (HealthChecker.checkAllAnalyzers hc replyOf elapsedOf nowOf d))
      = option_map
          (Analyzer.updateHealth (nowOf k) (is2xx (replyOf k)) (elapsedOf k))
          (JsMap.get k (WeightedDistributor.analyzers d)).
Proof.
  intros hc replyOf elapsedOf nowOf d Hok k.
  unfold HealthChecker.checkAllAnalyzers.
  rewrite analyzers_settleProbes, fold_probed_get.
  - rewrite (snapshot_ids d Hok).
    destruct (in_dec string_dec k
                (JsMap.keys (WeightedDistributor.analyzers d)))
      as [Hin|Hout]; [reflexivity|].
    apply get_None_keys in Hout. rewrite Hout. reflexivity.
  - rewrite (snapshot_ids d Hok). apply Hok.
Qed.

Lemma probe_round_records_each_once_witness :
  registry_ok (WeightedDistributor.analyzers Examples.a_then_b)
  /\ JsMap.get "b"
       (WeightedDistributor.analyzers
          (HealthChecker.checkAllAnalyzers
             Examples.checker5 Scenarios.replies (fun _ => 5)
             (fun _ => Examples.clock) Examples.a_then_b))
     = option_map
         (Analyzer.updateHealth Examples.clock
                                (is2xx (Scenarios.replies "b")) 5)
         (JsMap.get "b" (WeightedDistributor.analyzers Examples.a_then_b)).
Proof.
  split; [exact registry_ok_a_then_b|].
  apply (probe_round_records_each_once
           Examples.checker5 Scenarios.replies (fun _ => 5)
           (fun _ => Examples.clock) Examples.a_then_b
           registry_ok_a_then_b "b").
Defined.

(** ** The administrative endpoints *)

(** X12.  [DELETE /analyzers/:id] answers 200 whether or not the id is
    registered.  Afterwards the id is not registered and every other id
    has the record it had; for an unknown id the server is left exactly as
    it was, and for a known one a single [analyzerRemoved] event is
    emitted. *)
Theorem delete_always_answers_200 :
  forall (analyzerId : string) (srv : Server.t),
    let d := Server.distributor srv in
    let out := Server.deleteAnalyzer analyzerId srv in
    let d' := Server.distributor (fst out) in
    Server.statusCode (snd out) = 200
    /\ JsMap.get analyzerId (WeightedDistributor.analyzers d') = None
    /\ (forall k, analyzerId <> k ->
          JsMap.get k (WeightedDistributor.analyzers d')
          = JsMap.get k (WeightedDistributor.analyzers d))
    /\ match JsMap.get analyzerId (WeightedDistributor.analyzers d) with
       | None => fst out = srv
       | Some stored =>
           WeightedDistributor.emitted d'
           = WeightedDistributor.analyzerRemoved stored
               :: WeightedDistributor.emitted d
       end.
Proof.
  intros analyzerId srv d out d'. destruct srv as [d0 hc0]. simpl in *.
  subst d d' out. simpl.
  split; [reflexivity|]. split; [apply removeAnalyzer_removes|].
  split; [intros k Hne; apply removeAnalyzer_other; exact Hne|].
  unfold WeightedDistributor.removeAnalyzer.
  destruct (JsMap.get analyzerId (WeightedDistributor.analyzers d0));
    reflexivity.
Qed.

(** X13.  [POST /analyzers/:id/health] on an unknown id answers 500 and
    leaves the server as it was; on a registered id it answers 200 after
    recording exactly one outcome on that analyzer, a success exactly when
    the probe was answered with a 2xx status. *)
Theorem manual_probe_outcomes :
  forall (reply : HttpReply) (elapsed : Z) (now analyzerId : string)
         (srv : Server.t),
    let out := Server.postAnalyzerHealth reply elapsed now analyzerId srv in
    match JsMap.get analyzerId
                    (WeightedDistributor.analyzers (Server.distributor srv))
    with
    | None => Server.statusCode (snd out) = 500 /\ fst out = srv
    | Some stored =>
        Server.statusCode (snd out) = 200
        /\ JsMap.get analyzerId
             (WeightedDistributor.analyzers (Server.distributor (fst out)))
           = Some (Analyzer.updateHealth now (is2xx reply) elapsed stored)
    end.
Proof.
  intros reply elapsed now analyzerId srv out. subst out.
  destruct srv as [d hc]. unfold Server.postAnalyzerHealth. simpl.
  unfold HealthChecker.triggerHealthCheck.
  destruct (JsMap.get analyzerId (WeightedDistributor.analyzers d))
    as [stored|] eqn:E.
  - cbn [fst snd Server.statusCode Server.distributor
         Server.with_distributor].
    split; [reflexivity|].
    rewrite checkAnalyzerHealth_is2xx.
    rewrite (updateAnalyzerHealth_eq now analyzerId _ elapsed d stored E).
    simpl. apply get_set_same.
  - split; reflexivity.
Qed.

(** X14.  [GET /ready] answers 503 exactly when no registered analyzer is
    healthy, and 200 otherwise.  While it answers 503 every dispatch fails
    with "No healthy analyzers available": [errors] grows by one, no
    random number is drawn, and nothing else in the distributor
    changes. *)
Theorem not_ready_means_no_dispatch :
  forall (srv : Server.t),
    let d := Server.distributor srv in
    (Server.readyStatus (Server.getReady srv) = 503
     <-> WeightedDistributor.getHealthyAnalyzers d = [])
    /\ (Server.readyStatus (Server.getReady srv) = 200
        <-> WeightedDistributor.getHealthyAnalyzers d <> [])
    /\ (Server.readyStatus (Server.getReady srv) = 503 ->
        forall (JSON_parse : string -> Result LogMessage.json)
               (net : string -> LogMessage.json -> HttpReply)
               (elapsed : Z) (now message : string) (g : Rng),
          WeightedDistributor.distribute JSON_parse net elapsed now message
                                         d g
          = (WeightedDistributor.incr_errors d, g,
             Throw "No healthy analyzers available")).
Proof.
  intros srv d. unfold Server.getReady. fold d. simpl.
  destruct (WeightedDistributor.getHealthyAnalyzers d) as [|a rest] eqn:EH.
  - simpl. split; [split; reflexivity|]. split.
    + split; [discriminate | intros H; contradiction].
    + intros _ JSON_parse net elapsed now message g.
      unfold WeightedDistributor.distribute,
        WeightedDistributor.selectAnalyzer.
      rewrite EH. reflexivity.
  - replace (0 <? Z.of_nat (List.length (a :: rest))) with true
      by (symmetry; apply Z.ltb_lt; simpl List.length; lia).
    split; [split; discriminate|]. split.
    + split; [discriminate | reflexivity].
    + discriminate.
Qed.

(** ** Ingestion *)

Section IngestionFacts.
Variable uuid : nat -> string.
Variable JSON_stringify : LogMessage.json -> string.
Variable showNumber : Q -> string.

Lemma parseLogPacket_error now body n e n' :
  Server.parseLogPacket uuid now body n = (Throw e, n') ->
  e = "Invalid log packet format" /\ n' = n.
Proof.
  unfold Server.parseLogPacket, bind, ret.
  destruct body as [envelope|items|].
  - destruct (truthy_opt (LogPacket.j_id envelope)
              && truthy_opt (LogPacket.j_agentId envelope)
              && match LogPacket.j_messages envelope with
                 | Some _ => true
                 | None => false
                 end).
    + destruct (LogPacket.fromJSON uuid now envelope n). discriminate.
    + intros [= <- <-]. split; reflexivity.
  - destruct (mapM _ items n) as [messages n1].
    destruct (LogPacket.new uuid now (Some "unknown-agent")
                            (Some (map inl messages)) n1).
    discriminate.
  - intros [= <- <-]. split; reflexivity.
Qed.

Lemma distributePacket_room nowMs logPacket d g :
  Z.of_nat (List.length (WeightedDistributor.packetQueue d))
  < WeightedDistributor.maxQueueSize d ->
  WeightedDistributor.distributePacket showNumber nowMs logPacket d g
  = (WeightedDistributor.with_packetQueue
       (WeightedDistributor.packetQueue d
          ++ [WeightedDistributor.mkPacket
                ("packet-" ++ show nowMs ++ "-"
                   ++ showNumber (draws g (drawn g)))
                logPacket nowMs])%list
       (WeightedDistributor.incr_packetsReceived d),
     advance g, Ok tt).
Proof.
  intros Hroom. unfold WeightedDistributor.distributePacket.
  change (WeightedDistributor.maxQueueSize
            (WeightedDistributor.incr_packetsReceived d))
    with (WeightedDistributor.maxQueueSize d).
  change (WeightedDistributor.packetQueue
            (WeightedDistributor.incr_packetsReceived d))
    with (WeightedDistributor.packetQueue d).
  apply Z.leb_gt in Hroom. rewrite Hroom. reflexivity.
Qed.
End IngestionFacts.

(** X15.  [POST /logs] changes nothing when it refuses a body for its
    shape or content: a body that is neither an envelope with id, agentId
    and messages nor an array is answered 500, a packet that fails
    validation is answered 400, and in both cases the server, its queue
    and counters, and the random generator are as before.  A valid packet
    is answered 200 or 429. *)
Theorem refused_bodies_change_nothing :
  forall (uuid : nat -> string) (JSON_stringify : LogMessage.json -> string)
         (showNumber : Q -> string) (now : string) (nowMs : Z)
         (body : Server.LogsBody) (srv : Server.t) (g : Rng) (n : nat),
    let out :=
      Server.postLogs uuid JSON_stringify showNumber now nowMs body srv g n
    in
    let code := Server.statusCode (snd (fst out)) in
    match fst (Server.parseLogPacket uuid now body n) with
    | Throw _ => code = 500 /\ fst (fst out) = (srv, g)
    | Ok packet =>
        if LogPacket.isValid packet
        then code = 200 \/ code = 429
        else code = 400 /\ fst (fst out) = (srv, g)
    end.
Proof.
  intros uuid JSON_stringify showNumber now nowMs body srv g n out code.
  subst code out. unfold Server.postLogs, bind.
  destruct (Server.parseLogPacket uuid now body n) as [[packet|e] n'] eqn:Ep;
    cbn [fst].
  - destruct (LogPacket.isValid packet); cbn [negb].
    + destruct (WeightedDistributor.distributePacket
                  showNumber nowMs _ (Server.distributor srv) g)
        as [[d' g'] [u|e]] eqn:Ed.
      * left. reflexivity.
      * right. unfold WeightedDistributor.distributePacket in Ed.
        destruct (WeightedDistributor.maxQueueSize _ <=? _) in Ed.
        -- injection Ed as _ _ <-. reflexivity.
        -- destruct (Math_random g) in Ed. discriminate.
    + split; reflexivity.
  - destruct (parseLogPacket_error uuid now body n e n' Ep) as [-> _].
    split; reflexivity.
Qed.

(** X16.  When the queue has room, [POST /logs] with a valid packet
    answers 200 with the number of messages, and the packet goes to the
    back of the queue with one serialized string per message, in order,
    stamped with the arrival time; [packetsReceived] grows by one and
    nothing is dropped. *)
Theorem valid_packet_enqueued_at_back :
  forall (uuid : nat -> string) (JSON_stringify : LogMessage.json -> string)
         (showNumber : Q -> string) (now : string) (nowMs : Z)
         (body : Server.LogsBody) (srv : Server.t) (g : Rng) (n n' : nat)
         (packet : LogPacket.t),
    Server.parseLogPacket uuid now body n = (Ok packet, n') ->
    LogPacket.isValid packet = true ->
    Z.of_nat (List.length
                (WeightedDistributor.packetQueue (Server.distributor srv)))
    < WeightedDistributor.maxQueueSize (Server.distributor srv) ->
    let d := Server.distributor srv in
    let out :=
      Server.postLogs uuid JSON_stringify showNumber now nowMs body srv g n
    in
    let d' := Server.distributor (fst (fst (fst out))) in
    snd (fst out)
    = Server.mkHttpResponse 200
        (Server.logsAccepted
           (LogPacket.id packet)
           (Z.of_nat (List.length (LogPacket.messages packet))) now)
    /\ (exists queued,
          WeightedDistributor.packetQueue d'
          = (WeightedDistributor.packetQueue d ++ [queued])%list
          /\ WeightedDistributor.p_messages queued
             = map (fun m => JSON_stringify (LogMessage.toJSON m))
                   (LogPacket.messages packet)
          /\ WeightedDistributor.p_timestamp queued = nowMs)
    /\ WeightedDistributor.packetsReceived (WeightedDistributor.stats d')
       = WeightedDistributor.packetsReceived (WeightedDistributor.stats d)
         + 1
    /\ WeightedDistributor.packetsDropped (WeightedDistributor.stats d')
       = WeightedDistributor.packetsDropped (WeightedDistributor.stats d).
Proof.
  intros uuid JSON_stringify showNumber now nowMs body srv g n n' packet
         Hparse Hvalid Hroom d out d'.
  assert (Hout :
    out = (Server.with_distributor
             (fst (fst (WeightedDistributor.distributePacket
                          showNumber nowMs
                          (map (fun m => JSON_stringify (LogMessage.toJSON m))
                               (LogPacket.messages packet)) d g))) srv,
           advance g,
           Server.mkHttpResponse 200
             (Server.logsAccepted
                (LogPacket.id packet)
                (Z.of_nat (List.length (LogPacket.messages packet))) now),
           n')).
  { subst out. unfold Server.postLogs, bind. rewrite Hparse, Hvalid.
    cbv beta iota zeta. unfold negb. fold d.
    rewrite (distributePacket_room showNumber nowMs _ d g Hroom).
    cbn [fst snd]. rewrite length_map. reflexivity. }
  subst d'. rewrite Hout. cbn [fst snd].
  rewrite (distributePacket_room showNumber nowMs _ d g Hroom).
  split; [reflexivity|]. split.
  - eexists. split; [reflexivity|]. split; reflexivity.
  - split; reflexivity.
Qed.

Lemma valid_packet_enqueued_at_back_witness :
  Server.parseLogPacket Examples.uuid Examples.clock
                        (Server.BArray [inl "started"]) 0%nat
  = (Ok (LogPacket.mk "uuid-1" (Some "unknown-agent") Examples.clock
           [LogMessage.mk "uuid-0" Examples.clock (Some "INFO")
                          (Some "unknown") (Some "started") (JObj [])]),
     2%nat)
  /\ Server.statusCode
       (snd (fst (Server.postLogs
                    Examples.uuid Examples.stringify Examples.showNumber
                    Examples.clock 1000 (Server.BArray [inl "started"])
                    Scenarios.idle (Examples.constant (1 # 2)) 0%nat)))
     = 200.
Proof.
  split; [reflexivity|].
  destruct (valid_packet_enqueued_at_back
              Examples.uuid Examples.stringify Examples.showNumber
              Examples.clock 1000 (Server.BArray [inl "started"])
              Scenarios.idle (Examples.constant (1 # 2)) 0%nat 2%nat
              (LogPacket.mk "uuid-1" (Some "unknown-agent") Examples.clock
                 [LogMessage.mk "uuid-0" Examples.clock (Some "INFO")
                                (Some "unknown") (Some "started") (JObj [])])
              eq_refl eq_refl eq_refl) as [Hresp _].
  rewrite Hresp. reflexivity.
Defined.

(** ** Packets *)

Lemma fromJSON_toJSON_roundtrip_eq (uuid : nat -> string) (now : string)
      (n : nat) (m : LogMessage.t) :
  LogMessage.isValid m = true ->
  fst (LogMessage.fromJSON uuid now (LogMessage.toJSON m) n) = m.
Proof.
  intros Hvalid. unfold LogMessage.isValid in Hvalid.
  repeat (apply andb_true_iff in Hvalid; destruct Hvalid as [Hvalid ?]).
  destruct m as [i t l s msg md]. cbn in *. unfold or_else.
  repeat match goal with
         | H : truthy _ = true |- _ => rewrite H; clear H
         end.
  reflexivity.
Qed.

Section PacketFacts.
Variable uuid : nat -> string.
Variable now : string.

Lemma mapM_lift_instances (ms : list LogMessage.t) (n : nat) :
  mapM (LogPacket.lift uuid now) (map inl ms) n = (ms, n).
Proof.
  revert n. induction ms as [|m ms IH]; intros n; simpl.
  - reflexivity.
  - unfold bind, ret. simpl. rewrite IH. reflexivity.
Qed.

(** Lifting the wire forms of valid messages gives the messages back and
    uses one fresh identifier per message. *)
Lemma mapM_lift_wire (ms : list LogMessage.t) (n : nat) :
  forallb LogMessage.isValid ms = true ->
  mapM (LogPacket.lift uuid now) (map inr (map LogMessage.toJSON ms)) n
  = (ms, (n + List.length ms)%nat).
Proof.
  revert n. induction ms as [|m ms IH]; intros n Hvalid; simpl.
  - unfold ret. f_equal. lia.
  - simpl in Hvalid. apply andb_true_iff in Hvalid.
    destruct Hvalid as [Hm Hms].
    unfold bind.
    destruct (LogMessage.fromJSON uuid now (LogMessage.toJSON m) n)
      as [m' n1] eqn:E.
    assert (Hm' : m' = m).
    { pose proof (fromJSON_toJSON_roundtrip_eq uuid now n m Hm) as H.
      rewrite E in H. exact H. }
    assert (Hn1 : n1 = S n).
    { unfold LogMessage.fromJSON, LogMessage.new, bind, ret in E.
      injection E as _ <-. reflexivity. }
    subst m' n1. rewrite (IH (S n) Hms). unfold ret. f_equal. lia.
Qed.

(** The messages a bare array of strings is lifted to. *)
Lemma mapM_texts (texts : list string) (n : nat) :
  (forall k, truthy (uuid k) = true) -> truthy now = true ->
  exists ms,
    mapM (fun msg : string + LogMessage.json =>
            match msg with
            | inl text =>
                LogMessage.new uuid now (Some "INFO") (Some "unknown")
                               (Some text) None
            | inr json => LogMessage.fromJSON uuid now json
            end) (map inl texts) n
    = (ms, (n + List.length texts)%nat)
    /\ map LogMessage.message ms = map Some texts
    /\ Forall (fun m => LogMessage.level m = Some "INFO"
                        /\ LogMessage.source m = Some "unknown"
                        /\ LogMessage.timestamp m = now) ms
    /\ forallb LogMessage.isValid ms = forallb truthy texts.
Proof.
  intros Huuid Hnow. revert n.
  induction texts as [|text texts IH]; intros n; simpl.
  - exists []. unfold ret. repeat split; try constructor. f_equal. lia.
  - destruct (IH (S n)) as (ms & Hms & Hmsg & Hall & Hvalid).
    eexists. unfold bind, LogMessage.new at 1. rewrite Hms. unfold ret.
    split; [f_equal; lia|]. simpl. split; [f_equal; exact Hmsg|].
    split.
    + constructor; [repeat split | exact Hall].
    + rewrite Hvalid. unfold LogMessage.isValid at 1. simpl.
      rewrite Huuid, Hnow. reflexivity.
Qed.
End PacketFacts.

(** X17.  A bare array of strings is lifted to a packet of agent
    "unknown-agent" with one message per string, in order, each of level
    INFO and source "unknown" and stamped with the current time; the
    packet is valid exactly when none of the strings is empty (so the
    empty array is a valid packet).  One fresh identifier is used per
    message and one for the packet. *)
Theorem bare_strings_lifted :
  forall (uuid : nat -> string) (now : string) (texts : list string)
         (n : nat),
    (forall k, truthy (uuid k) = true) ->
    truthy now = true ->
    exists packet,
      Server.parseLogPacket uuid now (Server.BArray (map inl texts)) n
      = (Ok packet, S (n + List.length texts))
      /\ map LogMessage.message (LogPacket.messages packet) = map Some texts
      /\ Forall (fun m => LogMessage.level m = Some "INFO"
                          /\ LogMessage.source m = Some "unknown"
                          /\ LogMessage.timestamp m = now)
                (LogPacket.messages packet)
      /\ LogPacket.agentId packet = Some "unknown-agent"
      /\ LogPacket.isValid packet = forallb truthy texts.
Proof.
  intros uuid now texts n Huuid Hnow.
  destruct (mapM_texts uuid now texts n Huuid Hnow)
    as (ms & Hms & Hmsg & Hall & Hvalid).
  eexists. unfold Server.parseLogPacket, bind. rewrite Hms.
  unfold LogPacket.new. rewrite mapM_lift_instances. unfold ret.
  split; [reflexivity|]. cbn [LogPacket.messages LogPacket.agentId].
  split; [exact Hmsg|]. split; [exact Hall|]. split; [reflexivity|].
  unfold LogPacket.isValid. simpl. rewrite Huuid, Hnow, Hvalid.
  reflexivity.
Qed.

Lemma bare_strings_lifted_witness :
  truthy Examples.clock = true
  /\ exists packet,
      Server.parseLogPacket Examples.uuid Examples.clock
                            (Server.BArray (map inl ["up"; ""])) 0%nat
      = (Ok packet, 3%nat)
      /\ LogPacket.isValid packet = false.
Proof.
  split; [reflexivity|].
  destruct (bare_strings_lifted Examples.uuid Examples.clock ["up"; ""]
                                0%nat (fun k => eq_refl) eq_refl)
    as (packet & Hparse & _ & _ & _ & Hvalid).
  exists packet. split; [exact Hparse | exact Hvalid].
Defined.

(** X18.  For every valid packet, [LogPacket.fromJSON] applied to its
    [toJSON] form gives the packet back: id, agentId, timestamp and all
    messages, in order. *)
Theorem packet_roundtrip :
  forall (uuid : nat -> string) (now : string) (n : nat) (p : LogPacket.t),
    LogPacket.isValid p = true ->
    fst (LogPacket.fromJSON uuid now (LogPacket.toJSON p) n) = p.
Proof.
  intros uuid now n p Hvalid. unfold LogPacket.isValid in Hvalid.
  apply andb_true_iff in Hvalid. destruct Hvalid as [Hvalid Hms].
  apply andb_true_iff in Hvalid. destruct Hvalid as [Hvalid Hts].
  apply andb_true_iff in Hvalid. destruct Hvalid as [Hid _].
  destruct p as [i a t ms]. cbn in Hid, Hts, Hms.
  unfold LogPacket.fromJSON, LogPacket.toJSON, bind, LogPacket.new, ret.
  cbn [LogPacket.j_id LogPacket.j_agentId LogPacket.j_timestamp
       LogPacket.j_messages option_map LogPacket.id LogPacket.agentId
       LogPacket.timestamp LogPacket.messages].
  rewrite (mapM_lift_wire uuid now ms (S n) Hms).
  cbn [fst LogPacket.id LogPacket.agentId LogPacket.timestamp
       LogPacket.messages].
  rewrite !or_else_truthy by assumption. reflexivity.
Qed.

Lemma packet_roundtrip_witness :
  LogPacket.isValid Scenarios.packet = true
  /\ fst (LogPacket.fromJSON Examples.uuid "later"
                             (LogPacket.toJSON Scenarios.packet) 7%nat)
     = Scenarios.packet.
Proof.
  split; [reflexivity|].
  apply (packet_roundtrip Examples.uuid "later" 7%nat Scenarios.packet).
  reflexivity.
Defined.

(** X19.  [addMessage] keeps a valid packet valid: a valid message is
    appended at the end and nothing else changes, an invalid message is
    refused with "Invalid LogMessage provided". *)
Theorem addMessage_keeps_packet_valid :
  forall (m : LogMessage.t) (p : LogPacket.t),
    LogPacket.isValid p = true ->
    match LogPacket.addMessage m p with
    | Ok p' =>
        LogMessage.isValid m = true
        /\ LogPacket.isValid p' = true
        /\ LogPacket.messages p' = (LogPacket.messages p ++ [m])%list
        /\ LogPacket.id p' = LogPacket.id p
        /\ LogPacket.agentId p' = LogPacket.agentId p
        /\ LogPacket.timestamp p' = LogPacket.timestamp p
    | Throw e =>
        LogMessage.isValid m = false /\ e = "Invalid LogMessage provided"
    end.
Proof.
  intros m p Hvalid. unfold LogPacket.addMessage.
  destruct (LogMessage.isValid m) eqn:Hm; [|split; reflexivity].
  split; [reflexivity|]. split; [|repeat split].
  unfold LogPacket.isValid in *. cbn [LogPacket.id LogPacket.agentId
    LogPacket.timestamp LogPacket.messages].
  apply andb_true_iff in Hvalid. destruct Hvalid as [Hhead Hms].
  rewrite Hhead, forallb_app, Hms. simpl. rewrite Hm. reflexivity.
Qed.

Lemma addMessage_keeps_packet_valid_witness :
  LogPacket.isValid Scenarios.packet = true
  /\ match LogPacket.addMessage Examples.message Scenarios.packet with
     | Ok p' => LogPacket.isValid p' = true
     | Throw _ => False
     end.
Proof.
  split; [reflexivity|].
  pose proof (addMessage_keeps_packet_valid
                Examples.message Scenarios.packet eq_refl) as H.
  destruct (LogPacket.addMessage Examples.message Scenarios.packet)
    as [p'|e].
  - apply H.
  - destruct H as [H _]. discriminate H.
Defined.

(** ** The running distributor *)

Section WorkerFacts.
Import WeightedDistributor.

Ltac finish_worker_ok :=
  repeat split; try assumption; try lia;
  try (match goal with H : registry_ok _ |- _ => apply H end).

Lemma off_queue_refl d : off_queue d d.
Proof. unfold off_queue. repeat split; lia. Qed.

Lemma off_queue_trans d1 d2 d3 :
  off_queue d1 d2 -> off_queue d2 d3 -> off_queue d1 d3.
Proof.
  unfold off_queue. intros H12 H23.
  decompose [and] H12. decompose [and] H23.
  repeat split; try congruence. lia.
Qed.

Lemma off_queue_updateAnalyzerHealth now k success rt d :
  off_queue d (updateAnalyzerHealth now k success rt d).
Proof.
  unfold updateAnalyzerHealth.
  destruct (JsMap.get k (analyzers d)); [|apply off_queue_refl].
  unfold off_queue; simpl. repeat split; lia.
Qed.

Lemma off_queue_incr_errors d : off_queue d (incr_errors d).
Proof. unfold off_queue; simpl. repeat split; lia. Qed.

Lemma off_queue_emit e d : off_queue d (emit e d).
Proof. unfold off_queue; simpl. repeat split; lia. Qed.

Lemma off_queue_addAnalyzer a d : off_queue d (addAnalyzer a d).
Proof. unfold off_queue; simpl. repeat split; lia. Qed.

Lemma off_queue_removeAnalyzer k d : off_queue d (removeAnalyzer k d).
Proof.
  unfold removeAnalyzer.
  destruct (JsMap.get k (analyzers d)); [|apply off_queue_refl].
  unfold off_queue; simpl. repeat split; lia.
Qed.

Lemma off_queue_distribute JSON_parse net elapsed now message d g :
  off_queue d (fst (fst (distribute JSON_parse net elapsed now message d g))).
Proof.
  unfold distribute.
  destruct (selectAnalyzer d g) as [[a|] g']; cbn [fst].
  - unfold sendToAnalyzer.
    destruct (attempt JSON_parse net a message); cbn [fst].
    + eapply off_queue_trans;
        [apply off_queue_updateAnalyzerHealth | apply off_queue_emit].
    + eapply off_queue_trans; [apply off_queue_updateAnalyzerHealth|].
      eapply off_queue_trans; [apply off_queue_emit|].
      eapply off_queue_trans; [apply off_queue_incr_errors|].
      apply off_queue_updateAnalyzerHealth.
  - apply off_queue_incr_errors.
Qed.

Lemma off_queue_checkAnalyzerHealth hc reply elapsed now k endpoint d :
  off_queue d
    (HealthChecker.checkAnalyzerHealth hc reply elapsed now k endpoint d).
Proof.
  rewrite checkAnalyzerHealth_is2xx. apply off_queue_updateAnalyzerHealth.
Qed.

(** A step off the queue keeps [worker_ok] as soon as it keeps the
    registry well formed. *)
Lemma worker_ok_off_queue cap size w d' :
  worker_ok cap size w ->
  off_queue (Worker.distributor w) d' ->
  registry_ok (analyzers d') ->
  worker_ok cap size (Worker.mk d' (Worker.batch w)).
Proof.
  unfold worker_ok, off_queue. cbv zeta.
  cbn [Worker.distributor Worker.batch].
  intros (K1 & K2 & K3 & K4 & K5 & K6 & K7 & K8 & K9 & K10 & K11)
         (E1 & E2 & E3 & E4 & E5 & E6 & E7 & E8 & E9 & E10) Hreg.
  rewrite E1, E2, E3, E4, E5, E6, E7, E8, E9.
  repeat split; try assumption; try lia; apply Hreg.
Qed.

Lemma worker_ok_start options :
  worker_ok (number_or (o_maxQueueSize options) 10000)
            (number_or (o_batchSize options) 100) (Worker.start options).
Proof.
  unfold worker_ok. cbv zeta. simpl.
  repeat split; try lia; try apply registry_ok_empty.
Qed.

Lemma worker_ok_submit cap size showNumber nowMs logPacket w g :
  worker_ok cap size w ->
  worker_ok cap size
    (Worker.mk
       (fst (fst (distributePacket showNumber nowMs logPacket
                                   (Worker.distributor w) g)))
       (Worker.batch w)).
Proof.
  unfold worker_ok. cbv zeta. intros Hok. decompose [and] Hok. clear Hok.
  unfold distributePacket.
  change (maxQueueSize (incr_packetsReceived (Worker.distributor w)))
    with (maxQueueSize (Worker.distributor w)).
  change (packetQueue (incr_packetsReceived (Worker.distributor w)))
    with (packetQueue (Worker.distributor w)).
  destruct (maxQueueSize (Worker.distributor w)
            <=? Z.of_nat (List.length (packetQueue (Worker.distributor w))))
    eqn:Efull; simpl.
  - finish_worker_ok.
  - apply Z.leb_gt in Efull. rewrite length_app. simpl List.length.
    finish_worker_ok.
Qed.

Lemma worker_ok_processQueue cap size w :
  worker_ok cap size w -> worker_ok cap size (Worker.processQueue w).
Proof.
  intros Hok. unfold Worker.processQueue.
  destruct (isProcessing (Worker.distributor w)
            || (Z.of_nat (List.length (packetQueue (Worker.distributor w)))
                =? 0)) eqn:Eguard; [exact Hok|].
  apply orb_false_iff in Eguard. destruct Eguard as [Eidle _].
  unfold worker_ok in *. cbv zeta in *.
  decompose [and] Hok. clear Hok.
  assert (Hbatch : Worker.batch w = []).
  { destruct (Worker.batch w); [reflexivity | congruence]. }
  rewrite Hbatch in *. simpl List.length in *.
  set (n := Z.to_nat (batchSize (Worker.distributor w))).
  pose proof (firstn_skipn n (packetQueue (Worker.distributor w))) as Hsplit.
  apply (f_equal (@List.length _)) in Hsplit. rewrite length_app in Hsplit.
  pose proof (firstn_le_length n (packetQueue (Worker.distributor w)))
    as Hle.
  assert (Hn : Z.of_nat n <= Z.max 0 size) by (subst n; lia).
  pose proof (length_firstn n (packetQueue (Worker.distributor w))) as Hfirst.
  destruct (firstn n (packetQueue (Worker.distributor w))) as [|p taken]
    eqn:Etaken; simpl in *;
    finish_worker_ok.
Qed.

Lemma worker_ok_packetDone cap size nowMs w :
  worker_ok cap size w -> worker_ok cap size (Worker.packetDone nowMs w).
Proof.
  intros Hok. unfold Worker.packetDone.
  destruct (Worker.batch w) as [|packet rest] eqn:Ebatch; [exact Hok|].
  unfold worker_ok in *. cbv zeta in *. rewrite Ebatch in Hok.
  decompose [and] Hok. clear Hok. simpl List.length in *.
  assert (Havg :
    (inject_Z (totalLatency (stats (Worker.distributor w))
               + (nowMs - p_timestamp packet))
     / inject_Z (packetsProcessed (stats (Worker.distributor w)) + 1)
     * inject_Z (packetsProcessed (stats (Worker.distributor w)) + 1)
     == inject_Z (totalLatency (stats (Worker.distributor w))
                  + (nowMs - p_timestamp packet)))%Q).
  { rewrite Qmult_comm. apply Qmult_div_r.
    unfold Qeq; simpl. lia. }
  destruct rest as [|next rest]; simpl; simpl List.length in *;
    rewrite ?Zpos_P_of_succ_nat, ?Nat2Z.inj_succ in *;
    finish_worker_ok.
Qed.

Lemma worker_ok_step JSON_parse showNumber hc cap size w g a :
  worker_ok cap size w ->
  worker_ok cap size (fst (Worker.step JSON_parse showNumber hc (w, g) a)).
Proof.
  intros Hok.
  assert (Hreg : registry_ok (analyzers (Worker.distributor w)))
    by (unfold worker_ok in Hok; cbv zeta in Hok; tauto).
  destruct a as [nowMs logPacket| |net elapsed now message|nowMs
                |reply elapsed now k endpoint|analyzer|k];
    unfold Worker.step.
  - pose proof (worker_ok_submit cap size showNumber nowMs logPacket w g Hok)
      as H.
    destruct (distributePacket showNumber nowMs logPacket
                               (Worker.distributor w) g) as [[d' g'] r].
    exact H.
  - apply worker_ok_processQueue. exact Hok.
  - pose proof (off_queue_distribute JSON_parse net elapsed now message
                  (Worker.distributor w) g) as Hoff.
    pose proof (registry_ok_distribute JSON_parse net elapsed now message
                  (Worker.distributor w) g Hreg) as Hreg'.
    destruct (distribute JSON_parse net elapsed now message
                         (Worker.distributor w) g) as [[d' g'] r].
    apply worker_ok_off_queue; assumption.
  - apply worker_ok_packetDone. exact Hok.
  - apply worker_ok_off_queue;
      [exact Hok | apply off_queue_checkAnalyzerHealth
       | apply registry_ok_checkAnalyzerHealth; exact Hreg].
  - apply worker_ok_off_queue;
      [exact Hok | apply off_queue_addAnalyzer
       | apply registry_ok_addAnalyzer; exact Hreg].
  - apply worker_ok_off_queue;
      [exact Hok | apply off_queue_removeAnalyzer
       | apply registry_ok_removeAnalyzer; exact Hreg].
Qed.

Lemma worker_ok_run JSON_parse showNumber hc cap size actions : forall w g,
  worker_ok cap size w ->
  worker_ok cap size
    (fst (Worker.run JSON_parse showNumber hc (w, g) actions)).
Proof.
  unfold Worker.run.
  induction actions as [|a actions IH]; intros w g Hok; cbn [fold_left].
  - exact Hok.
  - pose proof (worker_ok_step JSON_parse showNumber hc cap size w g a Hok)
      as Hstep.
    destruct (Worker.step JSON_parse showNumber hc (w, g) a) as [w' g'].
    apply IH. exact Hstep.
Qed.

Lemma worker_ok_reachable JSON_parse showNumber hc options g actions :
  worker_ok (number_or (o_maxQueueSize options) 10000)
            (number_or (o_batchSize options) 100)
            (fst (Worker.run JSON_parse showNumber hc
                             (Worker.start options, g) actions)).
Proof. apply worker_ok_run. apply worker_ok_start. Qed.
End WorkerFacts.

(** X20.  At every moment of a run, whatever packets were submitted,
    batches taken, packets completed, messages dispatched, probes answered
    and analyzers added or removed, every packet received is accounted
    for: [packetsReceived] is the sum of [packetsProcessed],
    [packetsDropped], the packets in the queue and the packets of the
    batch in progress. *)
Theorem packets_accounted_for :
  forall (JSON_parse : string -> Result LogMessage.json)
         (showNumber : Q -> string) (hc : HealthChecker.t)
         (options : WeightedDistributor.Options) (g : Rng)
         (actions : list Worker.Action),
    let w :=
      fst (Worker.run JSON_parse showNumber hc (Worker.start options, g)
                      actions) in
    let d := Worker.distributor w in
    WeightedDistributor.packetsReceived (WeightedDistributor.stats d)
    = WeightedDistributor.packetsProcessed (WeightedDistributor.stats d)
      + WeightedDistributor.packetsDropped (WeightedDistributor.stats d)
      + WeightedDistributor.queueSize (WeightedDistributor.getStats d)
      + Z.of_nat (List.length (Worker.batch w)).
Proof.
  intros JSON_parse showNumber hc options g actions w d.
  pose proof (worker_ok_reachable JSON_parse showNumber hc options g actions)
    as Hok.
  fold w in Hok. unfold worker_ok in Hok. cbv zeta in Hok. fold d in Hok.
  apply Hok.
Qed.

(** X21.  The queue never holds more packets than the configured
    [maxQueueSize] (none at all when that is negative), a batch never
    holds more than [batchSize] packets, and neither setting changes
    during a run. *)
Theorem queue_and_batch_bounded :
  forall (JSON_parse : string -> Result LogMessage.json)
         (showNumber : Q -> string) (hc : HealthChecker.t)
         (options : WeightedDistributor.Options) (g : Rng)
         (actions : list Worker.Action),
    let w :=
      fst (Worker.run JSON_parse showNumber hc (Worker.start options, g)
                      actions) in
    let d := Worker.distributor w in
    WeightedDistributor.maxQueueSize d
    = number_or (WeightedDistributor.o_maxQueueSize options) 10000
    /\ WeightedDistributor.batchSize d
       = number_or (WeightedDistributor.o_batchSize options) 100
    /\ Z.of_nat (List.length (WeightedDistributor.packetQueue d))
       <= Z.max 0 (WeightedDistributor.maxQueueSize d)
    /\ Z.of_nat (List.length (Worker.batch w))
       <= Z.max 0 (WeightedDistributor.batchSize d).
Proof.
  intros JSON_parse showNumber hc options g actions w d.
  pose proof (worker_ok_reachable JSON_parse showNumber hc options g actions)
    as Hok.
  fold w in Hok. unfold worker_ok in Hok. cbv zeta in Hok. fold d in Hok.
  destruct Hok as (K1 & K2 & _ & K4 & K5 & _).
  rewrite K1, K2. repeat split; assumption.
Qed.

(** X22.  [isProcessing] is set exactly while packets of a batch remain
    to be completed, and while it is set a further [processQueue] call
    changes nothing: there is never more than one batch in progress. *)
Theorem one_batch_at_a_time :
  forall (JSON_parse : string -> Result LogMessage.json)
         (showNumber : Q -> string) (hc : HealthChecker.t)
         (options : WeightedDistributor.Options) (g : Rng)
         (actions : list Worker.Action),
    let w :=
      fst (Worker.run JSON_parse showNumber hc (Worker.start options, g)
                      actions) in
    match Worker.batch w with
    | [] =>
        WeightedDistributor.isProcessing (Worker.distributor w) = false
    | _ :: _ =>
        WeightedDistributor.isProcessing (Worker.distributor w) = true
        /\ Worker.processQueue w = w
    end.
Proof.
  intros JSON_parse showNumber hc options g actions w.
  pose proof (worker_ok_reachable JSON_parse showNumber hc options g actions)
    as Hok.
  fold w in Hok. unfold worker_ok in Hok. cbv zeta in Hok.
  destruct Hok as (_ & _ & _ & _ & _ & K6 & _).
  destruct (Worker.batch w); [exact K6|].
  split; [exact K6|]. unfold Worker.processQueue. rewrite K6. reflexivity.
Qed.


(** X24.  The registry of a running distributor is always well formed:
    ids are unique and every record is stored under its own id. *)
Theorem registry_always_well_formed :
  forall (JSON_parse : string -> Result LogMessage.json)
         (showNumber : Q -> string) (hc : HealthChecker.t)
         (options : WeightedDistributor.Options) (g : Rng)
         (actions : list Worker.Action),
    let m :=
      WeightedDistributor.analyzers
        (Worker.distributor
           (fst (Worker.run JSON_parse showNumber hc
                            (Worker.start options, g) actions))) in
    NoDup (JsMap.keys m)
    /\ forall k a, JsMap.get k m = Some a -> Analyzer.id a = k.
Proof.
  intros JSON_parse showNumber hc options g actions m.
  pose proof (worker_ok_reachable JSON_parse showNumber hc options g actions)
    as Hok.
  unfold worker_ok in Hok. cbv zeta in Hok. fold m in Hok.
  destruct Hok as (_ & _ & _ & _ & _ & _ & K7 & _).
  split; [apply K7|].
  intros k a Hget. exact (registry_ok_stored k a m K7 Hget).
Qed.

(** X25.  When no batch is in progress, [processQueue] takes the oldest
    packets off the queue, in order, at most [batchSize] of them, into the
    batch; the queue keeps the rest, and counters and registry are
    untouched. *)
Theorem batch_taken_in_arrival_order :
  forall (w : Worker.t),
    WeightedDistributor.isProcessing (Worker.distributor w) = false ->
    Worker.batch w = [] ->
    let d := Worker.distributor w in
    let w' := Worker.processQueue w in
    let d' := Worker.distributor w' in
    (Worker.batch w' ++ WeightedDistributor.packetQueue d')%list
    = WeightedDistributor.packetQueue d
    /\ List.length (Worker.batch w')
       = Nat.min (Z.to_nat (WeightedDistributor.batchSize d))
                 (List.length (WeightedDistributor.packetQueue d))
    /\ WeightedDistributor.stats d' = WeightedDistributor.stats d
    /\ WeightedDistributor.analyzers d' = WeightedDistributor.analyzers d.
Proof.
  intros w Hidle Hbatch d w' d'. subst d' w' d.
  unfold Worker.processQueue. rewrite Hidle. simpl orb.
  set (d := Worker.distributor w) in *.
  destruct (Z.of_nat (List.length (WeightedDistributor.packetQueue d)) =? 0)
    eqn:Eempty.
  - apply Z.eqb_eq in Eempty.
    destruct (WeightedDistributor.packetQueue d) eqn:Eq;
      [|simpl in Eempty; lia].
    rewrite Hbatch. fold d. rewrite Eq. simpl.
    rewrite Nat.min_0_r. repeat split; reflexivity.
  - set (n := Z.to_nat (WeightedDistributor.batchSize d)).
    pose proof (firstn_skipn n (WeightedDistributor.packetQueue d)) as Hsplit.
    pose proof (length_firstn n (WeightedDistributor.packetQueue d)) as Hlen.
    destruct (firstn n (WeightedDistributor.packetQueue d)) as [|p taken]
      eqn:Et; cbn [Worker.batch Worker.distributor];
      (split; [exact Hsplit|]); (split; [exact Hlen|]); split; reflexivity.
Qed.

Lemma batch_taken_in_arrival_order_witness :
  let w :=
    Worker.mk (Server.distributor Examples.full) [] in
  WeightedDistributor.isProcessing (Worker.distributor w) = false
  /\ List.length (Worker.batch (Worker.processQueue w)) = 1%nat.
Proof.
  cbv zeta. split; [reflexivity|].
  destruct (batch_taken_in_arrival_order
              (Worker.mk (Server.distributor Examples.full) [])
              eq_refl eq_refl) as (_ & Hlen & _).
  rewrite Hlen. reflexivity.
Defined.

(** ** Endpoints and configuration strings *)

Lemma stripTrailingSlash_cons (c : ascii) (r : string) :
  r <> EmptyString ->
  stripTrailingSlash (String c r) = String c (stripTrailingSlash r).
Proof. destruct r; [congruence | reflexivity]. Qed.

Lemma append_nonempty (s : string) (c : ascii) :
  (s ++ String c "")%string <> EmptyString.
Proof. destruct s; discriminate. Qed.

Lemma stripTrailingSlash_slash (s : string) :
  stripTrailingSlash (s ++ "/") = s.
Proof.
  induction s as [|c rest IH]; [reflexivity|].
  change ((String c rest) ++ "/")%string with (String c (rest ++ "/")).
  rewrite stripTrailingSlash_cons by apply append_nonempty.
  rewrite IH. reflexivity.
Qed.

Lemma stripTrailingSlash_other (s : string) (c : ascii) :
  Ascii.eqb c "/" = false ->
  stripTrailingSlash (s ++ String c "") = (s ++ String c "")%string.
Proof.
  intros Hc. induction s as [|c' rest IH].
  - simpl. rewrite Hc. reflexivity.
  - change ((String c' rest) ++ String c "")%string
      with (String c' (rest ++ String c "")).
    rewrite stripTrailingSlash_cons by apply append_nonempty.
    rewrite IH. reflexivity.
Qed.

(** X26.  An endpoint written with one trailing slash and the same
    endpoint written without it lead to the same analyze and health URLs;
    exactly one trailing slash is dropped, and an endpoint that does not
    end in a slash is used as it is. *)
Theorem trailing_slash_ignored :
  forall (now id endpoint : string) (weight : option Q),
    WeightedDistributor.analyzerUrl
      (Analyzer.new now id (endpoint ++ "/") weight)
    = (endpoint ++ "/analyze")%string
    /\ HealthChecker.healthUrl (endpoint ++ "/")
       = (endpoint ++ "/health")%string
    /\ (forall c : ascii,
          Ascii.eqb c "/" = false ->
          WeightedDistributor.analyzerUrl
            (Analyzer.new now id (endpoint ++ String c "") weight)
          = ((endpoint ++ String c "") ++ "/analyze")%string
          /\ HealthChecker.healthUrl (endpoint ++ String c "")
             = ((endpoint ++ String c "") ++ "/health")%string).
Proof.
  intros now id endpoint weight.
  unfold WeightedDistributor.analyzerUrl, HealthChecker.healthUrl.
  cbn [Analyzer.endpoint Analyzer.new].
  rewrite stripTrailingSlash_slash.
  split; [reflexivity|]. split; [reflexivity|].
  intros c Hc. rewrite (stripTrailingSlash_other endpoint c Hc).
  split; reflexivity.
Qed.

Section SplitFacts.
Import Main.
Variable sep : ascii.

Lemma split_nonempty (s : string) : split sep s <> [].
Proof.
  destruct s as [|c rest]; simpl; [discriminate|].
  destruct (Ascii.eqb c sep); discriminate.
Qed.

Lemma join_cons (x : string) (l : list string) :
  l <> [] ->
  join sep (x :: l) = (x ++ String sep (join sep l))%string.
Proof. destruct l; [congruence | reflexivity]. Qed.

Lemma join_String (c : ascii) (x : string) (l : list string) :
  join sep (String c x :: l) = String c (join sep (x :: l)).
Proof. destruct l; reflexivity. Qed.

Lemma join_split (s : string) : join sep (split sep s) = s.
Proof.
  induction s as [|c rest IH]; [reflexivity|].
  simpl. destruct (Ascii.eqb_spec c sep) as [->|Hne].
  - rewrite join_cons by apply split_nonempty. rewrite IH. reflexivity.
  - destruct (split sep rest) as [|p ps] eqn:E;
      [exfalso; exact (split_nonempty rest E)|].
    simpl hd. simpl tl. rewrite join_String, IH. reflexivity.
Qed.

Lemma split_before_sep (a b : string) :
  occurs sep a = false ->
  split sep (a ++ String sep b) = a :: split sep b.
Proof.
  induction a as [|c a IH]; simpl; intros Ha.
  - rewrite Ascii.eqb_refl. reflexivity.
  - apply orb_false_iff in Ha. destruct Ha as [Hc Ha].
    rewrite Hc, (IH Ha). reflexivity.
Qed.

Lemma split_without_sep (w : string) :
  occurs sep w = false -> split sep w = [w].
Proof.
  induction w as [|c w IH]; simpl; intros Hw; [reflexivity|].
  apply orb_false_iff in Hw. destruct Hw as [Hc Hw].
  rewrite Hc, (IH Hw). reflexivity.
Qed.

Lemma split_last (e w : string) :
  occurs sep w = false ->
  split sep (e ++ String sep w) = (split sep e ++ [w])%list.
Proof.
  intros Hw. induction e as [|c e IH]; simpl.
  - rewrite Ascii.eqb_refl, (split_without_sep w Hw). reflexivity.
  - rewrite IH. destruct (Ascii.eqb c sep); [reflexivity|].
    destruct (split sep e) as [|p ps] eqn:E;
      [exfalso; exact (split_nonempty e E)|].
    reflexivity.
Qed.
End SplitFacts.

(** X27.  An [ANALYZERS] entry "id:endpoint:weight" is read back as that
    id and that endpoint even when the endpoint itself contains colons,
    provided the id and the weight text contain none: the first colon ends
    the id and the last one starts the weight.  The weight is the parsed
    number, or 1.0 when the text is not a number or is zero. *)
Theorem analyzer_entry_parsed :
  forall (parseFloat : string -> option Q) (id endpoint weight : string),
    Main.occurs ":" id = false ->
    Main.occurs ":" weight = false ->
    Main.parseAnalyzer parseFloat (id ++ ":" ++ endpoint ++ ":" ++ weight)
    = Main.mkAnalyzerConfig id endpoint
        (match parseFloat weight with
         | Some w => if Qeq_bool w 0 then 1%Q else w
         | None => 1%Q
         end).
Proof.
  intros parseFloat id endpoint weight Hid Hw.
  unfold Main.parseAnalyzer.
  change (id ++ ":" ++ endpoint ++ ":" ++ weight)%string
    with (id ++ String ":" (endpoint ++ String ":" weight))%string.
  rewrite (split_before_sep ":" id _ Hid), (split_last ":" endpoint _ Hw).
  cbn [hd tl].
  change (id :: (Main.split ":" endpoint ++ [weight])%list)
    with ((id :: Main.split ":" endpoint) ++ [weight])%list.
  rewrite last_last, removelast_last, join_split.
  reflexivity.
Qed.

Lemma analyzer_entry_parsed_witness :
  Main.occurs ":" "analyzer-1" = false
  /\ Main.parseAnalyzer Scenarios.parseFloat
                        "analyzer-1:http://localhost:8081:0.4"
     = Main.mkAnalyzerConfig "analyzer-1" "http://localhost:8081" (4 # 10).
Proof.
  split; [reflexivity|].
  apply (analyzer_entry_parsed Scenarios.parseFloat "analyzer-1"
                               "http://localhost:8081" "0.4");
    reflexivity.
Defined.

(** X28.  A dispatch that the analyzer answers with a 2xx status returns
    true and records exactly one success on the analyzer's record, with
    the measured response time; the aggregate counters, [errors]
    included, are unchanged. *)
Theorem delivered_message_recorded_once :
  forall (JSON_parse : string -> Result LogMessage.json)
         (net : string -> LogMessage.json -> HttpReply)
         (elapsed : Z) (now message : string)
         (d : WeightedDistributor.t) (g g' : Rng)
         (analyzer stored : Analyzer.t) (logData : LogMessage.json)
         (st : Z) (txt : string),
    WeightedDistributor.selectAnalyzer d g = (Some analyzer, g') ->
    JsMap.get (Analyzer.id analyzer) (WeightedDistributor.analyzers d)
    = Some stored ->
    JSON_parse message = Ok logData ->
    net (WeightedDistributor.analyzerUrl analyzer)
        (WeightedDistributor.payload logData) = Responded st txt ->
    200 <= st < 300 ->
    let out :=
      WeightedDistributor.distribute JSON_parse net elapsed now message d g
    in
    let d' := fst (fst out) in
    snd out = Ok true
    /\ JsMap.get (Analyzer.id analyzer) (WeightedDistributor.analyzers d')
       = Some (Analyzer.updateHealth now true elapsed stored)
    /\ Analyzer.totalChecks (Analyzer.updateHealth now true elapsed stored)
       = Analyzer.totalChecks stored + 1
    /\ Analyzer.lastResponseTime
         (Analyzer.updateHealth now true elapsed stored) = elapsed
    /\ WeightedDistributor.stats d' = WeightedDistributor.stats d.
Proof.
  intros JSON_parse net elapsed now message d g g' analyzer stored logData
         st txt Hsel Hget Hparse Hnet Hst out d'.
  assert (Hatt := attempt_accepted JSON_parse net analyzer message logData
                    st txt Hparse Hnet Hst).
  destruct (distribute_delivered JSON_parse net elapsed now message d g
              analyzer g' stored logData Hsel Hget Hatt)
    as (Hres & Han & Hstats).
  fold out in Hres, Han, Hstats. fold d' in Han, Hstats.
  split; [exact Hres|]. split; [rewrite Han; apply get_set_same|].
  split; [reflexivity|]. split; [reflexivity | exact Hstats].
Qed.

Lemma delivered_message_recorded_once_witness :
  WeightedDistributor.selectAnalyzer
    Examples.single (Examples.constant (1 # 2))
  = (Some Examples.a1, Examples.constant (1 # 2))
  /\ 200 <= 201 < 300
  /\ JsMap.get "a1"
       (WeightedDistributor.analyzers
          (Examples.dispatch (Responded 201 "Created") Examples.single))
     = Some (Analyzer.updateHealth Examples.clock true 12 Examples.a1).
Proof.
  split; [reflexivity|]. split; [lia|].
  apply (delivered_message_recorded_once
           Examples.parse (Examples.answering (Responded 201 "Created"))
           12 Examples.clock "started" Examples.single
           (Examples.constant (1 # 2)) (Examples.constant (1 # 2))
           Examples.a1 Examples.a1 Examples.logData 201 "Created"
           eq_refl eq_refl eq_refl eq_refl ltac:(lia)).
Defined.
